(** * Stopwatch (Cronometro): a shallow embedding of the [Stopwatch]
      component and its verification.

    The component keeps four React state cells ([time], [isRunning],
    [isSelectingLabel], [currentDisplayedLabel]) and one mutable ref
    ([intervalRef]) holding the handle of the browser interval that drives
    the clock.  The event handlers are embedded as functions on an explicit
    component state; the browser's table of live intervals is part of that
    state, so that acquiring and releasing the timer can be stated.

    Numbers.  [time] is a JavaScript number, a double, that starts at [0]
    and is only ever changed by [prev + 10] or reset to [0].  The program
    is embedded twice.  [formatTime], [intervalCallback], [tick] and [run]
    compute on exact naturals ([N]): this is the program as long as its
    numbers are safe integers, below [2^53].  [OnDoubles.formatTime],
    [OnDoubles.intervalCallback], [OnDoubles.tick] and [OnDoubles.run]
    are the same code over [Binary64], which rounds every quotient and
    sum to the nearest double and prints numbers as
    [Number.prototype.toString] does.  The two are proved equal on safe
    integers; what depends on the arithmetic (the time string, the
    effect of a tick) is stated of the second.

    The second part embeds what the component renders, and the login
    page's [onSubmit] with the route guard [ProtectedRoute] that reads
    what it stores. *)

From Stdlib Require Import NArith Ascii String List Lia.
From stdpp Require Import base option strings gmap fin_maps.

Local Open Scope N_scope.

(** ** JavaScript string and number primitives used by [formatTime] *)

Module JS.

(** [String.fromCharCode (48 + d)] : the character of a decimal digit. *)
Definition digitChar (d : N) : ascii := ascii_of_N (48 + d).

(** The decimal digits of a natural number, most significant first, no
    leading zero, ["0"] for zero: what [Number.prototype.toString] prints
    for a safe integer ([Binary64.toString] is the function on every
    integer double).  [fuel] bounds the number of digits produced. *)
Fixpoint toStringFuel (fuel : nat) (n : N) : string :=
  match fuel with
  | O => EmptyString
  | S fuel' =>
      if n <? 10 then String (digitChar n) EmptyString
      else toStringFuel fuel' (n / 10) +:+ String (digitChar (n mod 10)) EmptyString
  end.

(** A number has no more decimal digits than binary ones. *)
Definition toString (n : N) : string :=
  toStringFuel (S (N.to_nat (N.log2 n))) n.

(** The first [k] characters of [padString] repeated for ever; [rest] is
    what is left of the current copy. *)
Fixpoint filler (k : nat) (padString rest : string) : string :=
  match k with
  | O => EmptyString
  | S k' =>
      match rest with
      | String c rest' => String c (filler k' padString rest')
      | EmptyString =>
          match padString with
          | String c rest' => String c (filler k' padString rest')
          | EmptyString => EmptyString
          end
      end
  end.

(** [String.prototype.padStart (targetLength, padString)]: a string that
    is already long enough is returned as it is (never truncated);
    otherwise it is prefixed with as much of the repeated [padString] as
    it takes to reach [targetLength]. *)
Definition padStart (targetLength : nat) (padString s : string) : string :=
  if (targetLength <=? String.length s)%nat then s
  else filler (targetLength - String.length s) padString padString +:+ s.

End JS.

(** ** Double-precision arithmetic *)

(** The operations of the source on JavaScript numbers, for the values
    they meet here: finite doubles that are non-negative integers,
    written as the natural number they denote.  A quotient or a sum is
    the exact result rounded to the nearest double, ties to the even
    significand.  Neither [a / b] with [b >= 1] nor [a + 10] leaves the
    finite doubles, and no quotient of such numbers is subnormal, so
    neither infinities nor subnormals are represented. *)
Module Binary64.

(** [Number.MAX_SAFE_INTEGER] *)
Definition MAX_SAFE_INTEGER : N := 2 ^ 53 - 1.

(** The fraction [(a / b) / 2^e], as numerator and denominator. *)
Definition scaled (a b : N) (e : Z) : N * N :=
  if (e <? 0)%Z then (a * 2 ^ Z.to_N (- e), b) else (a, b * 2 ^ Z.to_N e).

(** The exponent [e] at which [a / b] has a 53-bit significand:
    [2^52 <= (a / b) / 2^e < 2^53], for positive [a] and [b]. *)
Definition exponent (a b : N) : Z :=
  let e0 := (Z.of_N (N.log2 a) - Z.of_N (N.log2 b) - 52)%Z in
  let (n0, d0) := scaled a b e0 in
  if n0 / d0 <? 2 ^ 52 then (e0 - 1)%Z else e0.

(** The double nearest to [a / b], ties to the even significand, as
    significand and exponent: the value is [m * 2^e]. *)
Definition roundRatio (a b : N) : N * Z :=
  if a =? 0 then (0, 0%Z) else
  let e := exponent a b in
  let (n, d) := scaled a b e in
  let M := n / d in
  let R := n mod d in
  let up := (d <? 2 * R) || ((2 * R =? d) && N.odd M) in
  (if up then M + 1 else M, e).

(** [Math.floor] of the double [m * 2^e]. *)
Definition floor (x : N * Z) : N :=
  let (m, e) := x in
  if (e <? 0)%Z then m / 2 ^ Z.to_N (- e) else m * 2 ^ Z.to_N e.

(** [Math.floor(a / b)] *)
Definition floorDiv (a b : N) : N := floor (roundRatio a b).

(** [a + b] *)
Definition add (a b : N) : N := floor (roundRatio (a + b) 1).

(** [a % b]: the remainder of two doubles is exact. *)
Definition rem (a b : N) : N := a mod b.

(** The double nearest to the natural number [v]. *)
Definition round53 (v : N) : N := floor (roundRatio v 1).

(** [Number.prototype.toString] prints the decimal with the fewest
    significant digits that reads back as the same double, the closest
    one to it if there are several.  [shortest] is that decimal for an
    integer double [m] of [n] digits, searched from [k] digits upwards
    among the two neighbours of [m] that have [k] digits. *)
Fixpoint shortest (fuel : nat) (k n m : N) : N :=
  match fuel with
  | O => m
  | S fuel' =>
      let scale := 10 ^ (n - k) in
      let lo := (m / scale) * scale in
      let hi := lo + scale in
      let okLo := round53 lo =? m in
      let okHi := round53 hi =? m in
      if okLo && okHi then
        if m - lo <? hi - m then lo
        else if hi - m <? m - lo then hi
        else if N.even (m / scale) then lo else hi
      else if okLo then lo
      else if okHi then hi
      else shortest fuel' (k + 1) n m
  end.

(** [v] without its trailing zeros. *)
Fixpoint stripZeros (fuel : nat) (v : N) : N :=
  match fuel with
  | O => v
  | S fuel' =>
      if (v mod 10 =? 0) && negb (v =? 0) then stripZeros fuel' (v / 10) else v
  end.

(** Exponent form, for 22 digits and more: [d.ddde+x]. *)
Definition exponential (v : N) : string :=
  let n := String.length (JS.toString v) in
  let exponent := JS.toString (N.of_nat n - 1) in
  match JS.toString (stripZeros n v) with
  | String d EmptyString => String d EmptyString +:+ "e+" +:+ exponent
  | String d rest => String d (String "." rest) +:+ "e+" +:+ exponent
  | EmptyString => EmptyString
  end.

(** [Number.prototype.toString] on an integer double. *)
Definition toString (m : N) : string :=
  if m =? 0 then "0" else
  let n := String.length (JS.toString m) in
  let v := shortest n 1 (N.of_nat n) m in
  if v <? 10 ^ 21 then JS.toString v else exponential v.

End Binary64.

(** ** formatTime (Stopwatch.tsx, [formatTime]) *)

(** On exact naturals; [OnDoubles.formatTime] below is the same code on
    doubles. *)

(** [const pad = (num) => num.toString().padStart(2, '0')] *)
Definition pad (num : N) : string := JS.padStart 2 "0" (JS.toString num).

Definition formatTime (milliseconds : N) : string :=
  let minutes := milliseconds / 60000 in
  let seconds := (milliseconds mod 60000) / 1000 in
  let centiseconds := (milliseconds mod 1000) / 10 in
  pad minutes +:+ ":" +:+ pad seconds +:+ "." +:+ pad centiseconds.

(** ** Component state *)

(** [timePointLabels]: the labels the selection area offers, in order. *)
Definition timePointLabels : list string :=
  ["1° Tempo"; "2° Tempo"; "3° Tempo"; "4° Tempo";
   "Tempo Supplementare"; "Intervallo"; "Fine Partita"]%string.

(** The four [useState] cells, as one render sees them. *)
Record TimerState := mkTimerState {
  time : N;                                 (* useState(0) *)
  isRunning : bool;                         (* useState(false) *)
  isSelectingLabel : bool;                  (* useState(false) *)
  currentDisplayedLabel : option string     (* useState<string | null>(null) *)
}.

(** A mounted component: its state cells, the [intervalRef] ref
    ([number | null]) and the part of [window] it touches, the table of
    live intervals (handle to delay in milliseconds; every interval of
    this component runs the same callback) with the next handle
    [setInterval] returns. *)
Record Stopwatch := mkStopwatch {
  cells : TimerState;
  intervalRef : option nat;
  intervals : gmap nat N;
  nextHandle : nat
}.

Definition Idle : TimerState :=
  {| time := 0; isRunning := false; isSelectingLabel := false;
     currentDisplayedLabel := None |}.

(** *** State setters *)

Definition withCells (f : TimerState -> TimerState) (c : Stopwatch) : Stopwatch :=
  {| cells := f (cells c); intervalRef := intervalRef c;
     intervals := intervals c; nextHandle := nextHandle c |}.

(** [setTime] takes an updater; [setTime(0)] is [setTime (fun _ => 0)]. *)
Definition setTime (upd : N -> N) : Stopwatch -> Stopwatch :=
  withCells (fun s =>
    {| time := upd (time s); isRunning := isRunning s;
       isSelectingLabel := isSelectingLabel s;
       currentDisplayedLabel := currentDisplayedLabel s |}).

Definition setIsRunning (b : bool) : Stopwatch -> Stopwatch :=
  withCells (fun s =>
    {| time := time s; isRunning := b;
       isSelectingLabel := isSelectingLabel s;
       currentDisplayedLabel := currentDisplayedLabel s |}).

Definition setIsSelectingLabel (b : bool) : Stopwatch -> Stopwatch :=
  withCells (fun s =>
    {| time := time s; isRunning := isRunning s;
       isSelectingLabel := b;
       currentDisplayedLabel := currentDisplayedLabel s |}).

Definition setCurrentDisplayedLabel (l : option string) : Stopwatch -> Stopwatch :=
  withCells (fun s =>
    {| time := time s; isRunning := isRunning s;
       isSelectingLabel := isSelectingLabel s;
       currentDisplayedLabel := l |}).

(** *** The window's intervals *)

(** [window.setInterval (callback, delay)]: registers a live interval
    under a fresh positive handle and returns the handle. *)
Definition setInterval (delay : N) (c : Stopwatch) : nat * Stopwatch :=
  (nextHandle c,
   {| cells := cells c; intervalRef := intervalRef c;
      intervals := <[nextHandle c := delay]> (intervals c);
      nextHandle := S (nextHandle c) |}).

(** [clearInterval (handle)]: the interval stops firing; an unknown
    handle is ignored. *)
Definition clearInterval (handle : nat) (c : Stopwatch) : Stopwatch :=
  {| cells := cells c; intervalRef := intervalRef c;
     intervals := delete handle (intervals c);
     nextHandle := nextHandle c |}.

Definition setIntervalRef (r : option nat) (c : Stopwatch) : Stopwatch :=
  {| cells := cells c; intervalRef := r;
     intervals := intervals c; nextHandle := nextHandle c |}.

(** [if (intervalRef.current) { clearInterval(intervalRef.current); }]
    as it stands in the effect, in its cleanup and in [handleReset];
    [null] and [0] are falsy. *)
Definition clearCurrent (c : Stopwatch) : Stopwatch :=
  match intervalRef c with
  | Some handle => if Nat.eqb handle 0 then c else clearInterval handle c
  | None => c
  end.

(** *** The effect on [isRunning] *)

(** Body of [useEffect (..., [isRunning])]. *)
Definition effectBody (c : Stopwatch) : Stopwatch :=
  if isRunning (cells c) then
    let (handle, c') := setInterval 10 c in
    setIntervalRef (Some handle) c'
  else clearCurrent c.

(** The function the effect returns. *)
Definition effectCleanup (c : Stopwatch) : Stopwatch := clearCurrent c.

(** The callback handed to [setInterval]:
    [setTime((prevTime) => prevTime + 10)]. *)
Definition intervalCallback (c : Stopwatch) : Stopwatch :=
  setTime (fun prevTime => prevTime + 10) c.

(** *** Event handlers *)

(** Each handler reads the values of the render it was created in, here
    the state it is applied to. *)

Definition handleStartStop (c : Stopwatch) : Stopwatch :=
  let running := isRunning (cells c) in
  let c1 := setIsRunning (negb running) c in
  if running then setIsSelectingLabel false c1 else c1.

Definition handleReset (c : Stopwatch) : Stopwatch :=
  let c1 := clearCurrent c in
  let c2 := setIsRunning false c1 in
  let c3 := setTime (fun _ => 0) c2 in
  let c4 := setIsSelectingLabel false c3 in
  setCurrentDisplayedLabel None c4.

Definition handleShowLabelSelection (c : Stopwatch) : Stopwatch :=
  if isRunning (cells c) then setIsSelectingLabel true c else c.

Definition handleSelectTimePoint (label : string) (c : Stopwatch) : Stopwatch :=
  if isRunning (cells c) then
    setIsSelectingLabel false (setCurrentDisplayedLabel (Some label) c)
  else c.

(** *** React's part: committing an update *)

(** After a handler or callback has run, React renders and commits.  The
    effect lists [isRunning] as its only dependency: when the committed
    value differs from the one of the previous render, the previous
    cleanup runs and then the effect body; otherwise neither runs. *)
Definition commit (renderedRunning : bool) (c : Stopwatch) : Stopwatch :=
  if Bool.eqb renderedRunning (isRunning (cells c)) then c
  else effectBody (effectCleanup c).

(** One complete state transition: the handler, then the commit. *)
Definition dispatch (handler : Stopwatch -> Stopwatch) (c : Stopwatch) : Stopwatch :=
  commit (isRunning (cells c)) (handler c).

(** Mounting: the four initial values, [useRef(null)], and the effect's
    first run.  Handles of [setInterval] start at 1. *)
Definition mount : Stopwatch :=
  effectBody {| cells := Idle; intervalRef := None;
                intervals := ∅; nextHandle := 1 |}.

(** Unmounting runs the last cleanup. *)
Definition unmount (c : Stopwatch) : Stopwatch := effectCleanup c.

(** ** The operations of the timer *)

Definition toggleRunning : Stopwatch -> Stopwatch := dispatch handleStartStop.
Definition reset : Stopwatch -> Stopwatch := dispatch handleReset.
Definition requestLabelSelection : Stopwatch -> Stopwatch :=
  dispatch handleShowLabelSelection.
Definition selectLabel (label : string) : Stopwatch -> Stopwatch :=
  dispatch (handleSelectTimePoint label).

(** The window fires the interval [handle]: its callback runs if the
    interval is still live, and nothing happens if it was cleared. *)
Definition tick (handle : nat) (c : Stopwatch) : Stopwatch :=
  match intervals c !! handle with
  | Some _ => dispatch intervalCallback c
  | None => c
  end.

Inductive operation :=
| ToggleRunning
| Reset
| RequestLabelSelection
| SelectLabel (label : string)
| Tick (handle : nat).

Definition perform (o : operation) : Stopwatch -> Stopwatch :=
  match o with
  | ToggleRunning => toggleRunning
  | Reset => reset
  | RequestLabelSelection => requestLabelSelection
  | SelectLabel label => selectLabel label
  | Tick handle => tick handle
  end.

(** The operations of [ops], first to last. *)
Definition run (ops : list operation) (c : Stopwatch) : Stopwatch :=
  fold_left (fun acc o => perform o acc) ops c.

Definition isTick (o : operation) : bool :=
  match o with Tick _ => true | _ => false end.

(** ** The same code on doubles *)

(** [formatTime] and the interval callback with the arithmetic of the
    source: [/], [+] and [toString] on doubles.  The other handlers do no
    arithmetic. *)
Module OnDoubles.

Definition pad (num : N) : string :=
  JS.padStart 2 "0" (Binary64.toString num).

Definition formatTime (milliseconds : N) : string :=
  let minutes := Binary64.floorDiv milliseconds 60000 in
  let seconds := Binary64.floorDiv (Binary64.rem milliseconds 60000) 1000 in
  let centiseconds := Binary64.floorDiv (Binary64.rem milliseconds 1000) 10 in
  pad minutes +:+ ":" +:+ pad seconds +:+ "." +:+ pad centiseconds.

Definition intervalCallback (c : Stopwatch) : Stopwatch :=
  setTime (fun prevTime => Binary64.add prevTime 10) c.

Definition tick (handle : nat) (c : Stopwatch) : Stopwatch :=
  match intervals c !! handle with
  | Some _ => dispatch intervalCallback c
  | None => c
  end.

Definition perform (o : operation) : Stopwatch -> Stopwatch :=
  match o with
  | ToggleRunning => toggleRunning
  | Reset => reset
  | RequestLabelSelection => requestLabelSelection
  | SelectLabel label => selectLabel label
  | Tick handle => tick handle
  end.

Definition run (ops : list operation) (c : Stopwatch) : Stopwatch :=
  fold_left (fun acc o => perform o acc) ops c.

End OnDoubles.

(** ** What the component renders *)

(** The parts of the returned JSX that depend on the state. *)
Record View := mkView {
  labelBanner : option string;    (* {currentDisplayedLabel && <div>...} *)
  display : string;               (* {formatTime(time)} *)
  startStopCaption : string;      (* Stop | Start *)
  startStopVariant : string;      (* 'destructive' | 'default' *)
  resetDisabled : bool;           (* disabled={isRunning && time === 0} *)
  selectDisabled : bool;          (* disabled={!isRunning || isSelectingLabel} *)
  labelButtons : list string      (* one button per label, when shown *)
}.

(** JavaScript truthiness of a [string | null]: [null] and the empty
    string are falsy. *)
Definition truthyString (v : option string) : bool :=
  match v with
  | Some (String _ _) => true
  | _ => false
  end.

Definition render (s : TimerState) : View :=
  {| labelBanner :=
       if truthyString (currentDisplayedLabel s)
       then currentDisplayedLabel s else None;
     display := formatTime (time s);
     startStopCaption := if isRunning s then "Stop" else "Start";
     startStopVariant := if isRunning s then "destructive" else "default";
     resetDisabled := isRunning s && (time s =? 0);
     selectDisabled := negb (isRunning s) || isSelectingLabel s;
     labelButtons :=
       if isSelectingLabel s && isRunning s
       then map (fun label => label) timePointLabels else [] |}.

(** What a user (or the window) can do to the rendered component: press
    one of the buttons, or have an interval fire.  A disabled button
    does not call its [onClick]; a label button exists only if it is
    rendered. *)
Inductive gesture :=
| PressStartStop
| PressReset
| PressSelectTime
| PressLabel (index : nat)
| Fire (handle : nat).

Definition react (g : gesture) (c : Stopwatch) : Stopwatch :=
  let view := render (cells c) in
  match g with
  | PressStartStop => toggleRunning c
  | PressReset => if resetDisabled view then c else reset c
  | PressSelectTime =>
      if selectDisabled view then c else requestLabelSelection c
  | PressLabel index =>
      match labelButtons view !! index with
      | Some label => selectLabel label c
      | None => c
      end
  | Fire handle => tick handle c
  end.

Definition session (gs : list gesture) (c : Stopwatch) : Stopwatch :=
  fold_left (fun acc g => react g acc) gs c.

(** The label shown, if any, is one of those the selection area offers. *)
Definition labelOffered (c : Stopwatch) : Prop :=
  forall label,
    currentDisplayedLabel (cells c) = Some label -> In label timePointLabels.

(** ** The login page and the route guard *)

Module LoginPage.

Record LoginFormValues := mkValues { id : string; password : string }.

(** [import.meta.env]: a variable is a string or is not set. *)
Record Env := mkEnv {
  VITE_APP_SINGLE_USER_ID : option string;
  VITE_APP_SINGLE_PASSWORD : option string
}.

Inductive toast :=
| showSuccess (message : string)
| showError (message : string).

(** What [onSubmit] reads and writes outside itself. *)
Record Browser := mkBrowser {
  localStorage : gmap string string;
  location : string;                 (* where [navigate] last went *)
  toasts : list toast;               (* oldest first *)
  console : list string;             (* [console.error] lines *)
  form : LoginFormValues             (* the values of the form *)
}.

(** [loginFormSchema]: both fields [z.string().min(1)]. *)
Definition loginFormSchema (values : LoginFormValues) : bool :=
  (1 <=? String.length (id values))%nat
  && (1 <=? String.length (password values))%nat.

Definition onSubmit (env : Env) (values : LoginFormValues) (b : Browser)
  : Browser :=
  let correctId := VITE_APP_SINGLE_USER_ID env in
  let correctPassword := VITE_APP_SINGLE_PASSWORD env in
  if negb (truthyString correctId) || negb (truthyString correctPassword) then
    {| localStorage := localStorage b; location := location b;
       toasts :=
         toasts b
         ++ [showError "Errore di configurazione: ID o Password non impostati."];
       console :=
         console b
         ++ ["VITE_APP_SINGLE_USER_ID or VITE_APP_SINGLE_PASSWORD not set in environment variables."%string];
       form := form b |}
  else if bool_decide (Some (id values) = correctId)
          && bool_decide (Some (password values) = correctPassword) then
    {| localStorage := <["isLoggedIn"%string := "true"%string]> (localStorage b);
       location := "/";
       toasts := toasts b ++ [showSuccess "Accesso effettuato con successo!"];
       console := console b;
       form := form b |}
  else
    {| localStorage := localStorage b; location := location b;
       toasts := toasts b ++ [showError "ID o password errati."];
       console := console b;
       form := {| id := id values; password := "" |} |}.

(** Typing into the two inputs. *)
Definition fill (values : LoginFormValues) (b : Browser) : Browser :=
  {| localStorage := localStorage b; location := location b;
     toasts := toasts b; console := console b; form := values |}.

(** [form.handleSubmit(onSubmit)]: [onSubmit] runs on the values of the
    form, and only if the schema accepts them; otherwise the form shows
    its messages under the fields (not part of [Browser]) and nothing
    else happens. *)
Definition handleSubmit (env : Env) (b : Browser) : Browser :=
  if loginFormSchema (form b) then onSubmit env (form b) b else b.

(** One attempt: fill in the form and submit it. *)
Definition attempt (env : Env) (values : LoginFormValues) (b : Browser)
  : Browser :=
  handleSubmit env (fill values b).

End LoginPage.

(** What a route element renders to. *)
Inductive element :=
| Outlet
| Navigate (to : string) (replace : bool).

Definition ProtectedRoute (b : LoginPage.Browser) : element :=
  let isLoggedIn :=
    bool_decide (LoginPage.localStorage b !! "isLoggedIn"%string
                 = Some "true"%string) in
  if negb isLoggedIn then Navigate "/login" true else Outlet.

(** The submitted values are the configured credentials, both of which
    are set and not empty. *)
Definition credentialsMatch (env : LoginPage.Env)
    (values : LoginPage.LoginFormValues) : Prop :=
  LoginPage.VITE_APP_SINGLE_USER_ID env = Some (LoginPage.id values)
  /\ LoginPage.id values <> EmptyString
  /\ LoginPage.VITE_APP_SINGLE_PASSWORD env = Some (LoginPage.password values)
  /\ LoginPage.password values <> EmptyString.

(** A run of login attempts, first to last. *)
Definition attempts (env : LoginPage.Env)
    (tries : list LoginPage.LoginFormValues) (b : LoginPage.Browser)
  : LoginPage.Browser :=
  fold_left (fun acc values => LoginPage.attempt env values acc) tries b.

(** A browser in which nobody has logged in yet, showing the login page. *)
Definition freshBrowser : LoginPage.Browser :=
  {| LoginPage.localStorage := ∅;
     LoginPage.location := "/login";
     LoginPage.toasts := [];
     LoginPage.console := [];
     LoginPage.form := {| LoginPage.id := ""; LoginPage.password := "" |} |}.

(** A running clock, 1 801 439 850 948 198 ticks after it was started
    from zero. *)
Definition lateClock : Stopwatch :=
  {| cells := {| time := 18014398509481980; isRunning := true;
                 isSelectingLabel := false; currentDisplayedLabel := None |};
     intervalRef := Some 1%nat;
     intervals := {[ 1%nat := 10 ]};
     nextHandle := 2 |}.

(** ** Specification vocabulary *)

(** The value of a decimal digit character, if it is one. *)
Definition digitValue (ch : ascii) : option N :=
  let code := N_of_ascii ch in
  if (48 <=? code) && (code <=? 57) then Some (code - 48) else None.

(** Reading a string of decimal digits, most significant first. *)
Fixpoint decimalValueFrom (acc : N) (s : string) : option N :=
  match s with
  | EmptyString => Some acc
  | String ch s' =>
      match digitValue ch with
      | Some d => decimalValueFrom (10 * acc + d) s'
      | None => None
      end
  end.

Definition decimalValue (s : string) : option N :=
  match s with
  | EmptyString => None
  | _ => decimalValueFrom 0 s
  end.

(** [s] shows [v] in decimal, zero-padded to at least [width] digits:
    only digits, denoting exactly [v] (nothing is cut off), at least
    [width] of them, and no zero in front once there are more than
    [width]. *)
Definition zeroPadded (width : nat) (v : N) (s : string) : Prop :=
  decimalValue s = Some v
  /\ (width <= String.length s)%nat
  /\ ((width < String.length s)%nat -> forall rest, s <> String "0" rest).

(** What holds of every component state reached from [mount]: the ref
    and the window agree with [isRunning], and the selection area is only
    open while the clock runs. *)
Record consistent (c : Stopwatch) : Prop := {
  handle_positive : (0 < nextHandle c)%nat;
  ref_known : forall h, intervalRef c = Some h -> (0 < h < nextHandle c)%nat;
  running_live :
    isRunning (cells c) = true ->
    exists h, intervalRef c = Some h /\ intervals c = {[ h := 10 ]};
  stopped_clear : isRunning (cells c) = false -> intervals c = ∅;
  selecting_running :
    isSelectingLabel (cells c) = true -> isRunning (cells c) = true
}.

(** * Properties *)

(** ** Decimal printing *)

Section Printing.

Lemma toStringFuel_irrel (f1 : nat) :
  forall (f2 : nat) (n : N),
    (0 < f1)%nat -> (0 < f2)%nat ->
    n < 2 ^ N.of_nat f1 -> n < 2 ^ N.of_nat f2 ->
    JS.toStringFuel f1 n = JS.toStringFuel f2 n.
Proof.
  induction f1 as [|f1 IH]; intros f2 n H1 H2 B1 B2; [lia|].
  destruct f2 as [|f2]; [lia|]. simpl.
  destruct (N.ltb_spec n 10) as [Hlt|Hge]; [reflexivity|].
  rewrite Nat2N.inj_succ, N.pow_succ_r' in B1, B2.
  assert (n / 10 < 2 ^ N.of_nat f1) by (apply N.Div0.div_lt_upper_bound; lia).
  assert (n / 10 < 2 ^ N.of_nat f2) by (apply N.Div0.div_lt_upper_bound; lia).
  assert (0 < f1)%nat.
  { destruct f1; [simpl in B1; lia | lia]. }
  assert (0 < f2)%nat.
  { destruct f2; [simpl in B2; lia | lia]. }
  f_equal. apply IH; assumption.
Qed.

Lemma log2_fuel (n : N) : n < 2 ^ N.of_nat (S (N.to_nat (N.log2 n))).
Proof.
  rewrite Nat2N.inj_succ, N2Nat.id.
  destruct (N.eq_dec n 0) as [->|Hn]; [reflexivity|].
  apply N.log2_spec. lia.
Qed.

Lemma toString_digit (n : N) :
  n < 10 -> JS.toString n = String (JS.digitChar n) EmptyString.
Proof.
  intros Hn. unfold JS.toString. simpl.
  apply N.ltb_lt in Hn. now rewrite Hn.
Qed.

Lemma toString_step (n : N) :
  10 <= n ->
  JS.toString n
  = JS.toString (n / 10) +:+ String (JS.digitChar (n mod 10)) EmptyString.
Proof.
  intros Hn. unfold JS.toString at 1. simpl.
  destruct (N.ltb_spec n 10) as [?|_]; [lia|].
  f_equal. pose proof (log2_fuel n) as B.
  rewrite Nat2N.inj_succ, N.pow_succ_r' in B.
  apply toStringFuel_irrel.
  - destruct (N.to_nat (N.log2 n)); [simpl in B; lia | lia].
  - lia.
  - apply N.Div0.div_lt_upper_bound; lia.
  - apply log2_fuel.
Qed.

Lemma digitValue_digitChar (d : N) :
  d < 10 -> digitValue (JS.digitChar d) = Some d.
Proof.
  intros Hd.
  assert (Hc : d = 0 \/ d = 1 \/ d = 2 \/ d = 3 \/ d = 4 \/ d = 5 \/
               d = 6 \/ d = 7 \/ d = 8 \/ d = 9) by lia.
  repeat (destruct Hc as [->|Hc]; [reflexivity|]). now subst.
Qed.

Lemma digitChar_zero (d : N) :
  d < 10 -> JS.digitChar d = "0"%char -> d = 0.
Proof.
  intros Hd E. apply digitValue_digitChar in Hd.
  rewrite E in Hd. now inversion Hd.
Qed.

Lemma decimalValueFrom_app (s1 s2 : string) :
  forall acc,
    decimalValueFrom acc (s1 +:+ s2)
    = match decimalValueFrom acc s1 with
      | Some a => decimalValueFrom a s2
      | None => None
      end.
Proof.
  induction s1 as [|ch s1 IH]; intros acc; simpl; [reflexivity|].
  destruct (digitValue ch); [apply IH | reflexivity].
Qed.

Lemma length_app_string (s1 s2 : string) :
  String.length (s1 +:+ s2) = (String.length s1 + String.length s2)%nat.
Proof. induction s1 as [|ch s1 IH]; simpl; [reflexivity | now rewrite IH]. Qed.

(** Induction along [n / 10], the way [toString] peels digits. *)
Lemma by_digits (P : N -> Prop) :
  (forall n, n < 10 -> P n) ->
  (forall n, 10 <= n -> P (n / 10) -> P n) ->
  forall n, P n.
Proof.
  intros Hsmall Hstep n.
  induction (N.lt_wf 0 n) as [n _ IH].
  destruct (N.lt_ge_cases n 10) as [Hlt|Hge]; [now apply Hsmall|].
  apply Hstep; [assumption|]. apply IH.
  split; [apply N.le_0_l | apply N.div_lt; lia].
Qed.

Lemma toString_value (n : N) : decimalValueFrom 0 (JS.toString n) = Some n.
Proof.
  induction n as [n Hn | n Hn IH] using by_digits.
  - rewrite toString_digit by assumption. simpl.
    rewrite digitValue_digitChar by assumption. f_equal; lia.
  - rewrite toString_step, decimalValueFrom_app, IH by assumption. simpl.
    rewrite digitValue_digitChar by (apply N.mod_lt; lia).
    f_equal. rewrite (N.div_mod n 10) at 3 by lia. reflexivity.
Qed.

Lemma toString_length_pos (n : N) : (1 <= String.length (JS.toString n))%nat.
Proof.
  destruct (N.lt_ge_cases n 10) as [Hlt|Hge].
  - rewrite toString_digit by assumption. simpl. lia.
  - rewrite toString_step, length_app_string by assumption. simpl. lia.
Qed.

Lemma toString_length_two (n : N) :
  10 <= n -> (2 <= String.length (JS.toString n))%nat.
Proof.
  intros Hn. rewrite toString_step, length_app_string by assumption.
  pose proof (toString_length_pos (n / 10)). simpl. lia.
Qed.

Lemma toString_length_three (n : N) :
  100 <= n -> (3 <= String.length (JS.toString n))%nat.
Proof.
  intros Hn. rewrite toString_step, length_app_string by lia.
  assert (10 <= n / 10) by (apply N.div_le_lower_bound; lia).
  pose proof (toString_length_two (n / 10)). simpl. lia.
Qed.

Lemma toString_length_lt100 (n : N) :
  10 <= n -> n < 100 -> String.length (JS.toString n) = 2%nat.
Proof.
  intros Hlo Hhi. rewrite toString_step by assumption.
  rewrite toString_digit by (apply N.Div0.div_lt_upper_bound; lia).
  reflexivity.
Qed.

Lemma toString_no_leading_zero (n : N) :
  0 < n -> forall rest, JS.toString n <> String "0" rest.
Proof.
  induction n as [n Hn | n Hn IH] using by_digits; intros Hpos rest E.
  - rewrite toString_digit in E by assumption.
    inversion E as [[E1 E2]]. apply digitChar_zero in E1; lia.
  - rewrite toString_step in E by assumption.
    assert (Hq : 0 < n / 10) by (apply N.div_str_pos; lia).
    pose proof (toString_length_pos (n / 10)) as Hlen.
    destruct (JS.toString (n / 10)) as [|ch s] eqn:Es; [simpl in Hlen; lia|].
    simpl in E. inversion E as [[E1 E2]]. subst ch.
    exact (IH Hq s eq_refl).
Qed.

End Printing.

(** ** Padding *)

Section Padding.

Lemma pad_digit (n : N) :
  n < 10 -> pad n = String "0" (String (JS.digitChar n) EmptyString).
Proof.
  intros Hn. unfold pad. now rewrite toString_digit by assumption.
Qed.

Lemma pad_wide (n : N) : 10 <= n -> pad n = JS.toString n.
Proof.
  intros Hn. unfold pad, JS.padStart.
  pose proof (toString_length_two n Hn) as Hlen.
  destruct (Nat.leb_spec 2 (String.length (JS.toString n))); [reflexivity | lia].
Qed.

Lemma pad_zeroPadded (n : N) : zeroPadded 2 n (pad n).
Proof.
  destruct (N.lt_ge_cases n 10) as [Hlt|Hge].
  - rewrite pad_digit by assumption. repeat split.
    + simpl. rewrite digitValue_digitChar by assumption. f_equal; lia.
    + simpl. lia.
    + simpl. lia.
  - rewrite pad_wide by assumption. repeat split.
    + pose proof (toString_length_pos n) as Hlen.
      pose proof (toString_value n) as Hv.
      unfold decimalValue. destruct (JS.toString n); [simpl in Hlen; lia | exact Hv].
    + now apply toString_length_two.
    + intros _. apply toString_no_leading_zero. lia.
Qed.

Lemma pad_length_two (n : N) : n < 100 -> String.length (pad n) = 2%nat.
Proof.
  intros Hn. destruct (N.lt_ge_cases n 10) as [Hlt|Hge].
  - now rewrite pad_digit.
  - rewrite pad_wide by assumption. now apply toString_length_lt100.
Qed.

Lemma pad_length_three (n : N) : 100 <= n -> (3 <= String.length (pad n))%nat.
Proof.
  intros Hn. rewrite pad_wide by lia. now apply toString_length_three.
Qed.

End Padding.

(** ** What the operations do to the state cells *)

Section Cells.

Lemma cells_clearCurrent (c : Stopwatch) : cells (clearCurrent c) = cells c.
Proof. unfold clearCurrent. destruct (intervalRef c) as [[|h]|]; reflexivity. Qed.

Lemma cells_effectBody (c : Stopwatch) : cells (effectBody c) = cells c.
Proof.
  unfold effectBody. destruct (isRunning (cells c)); [reflexivity|].
  apply cells_clearCurrent.
Qed.

Lemma cells_commit (b : bool) (c : Stopwatch) : cells (commit b c) = cells c.
Proof.
  unfold commit, effectCleanup.
  destruct (Bool.eqb b (isRunning (cells c))); [reflexivity|].
  now rewrite cells_effectBody, cells_clearCurrent.
Qed.

Lemma cells_dispatch (handler : Stopwatch -> Stopwatch) (c : Stopwatch) :
  cells (dispatch handler c) = cells (handler c).
Proof. apply cells_commit. Qed.

Lemma cells_toggleRunning (c : Stopwatch) :
  cells (toggleRunning c)
  = {| time := time (cells c);
       isRunning := negb (isRunning (cells c));
       isSelectingLabel :=
         if isRunning (cells c) then false else isSelectingLabel (cells c);
       currentDisplayedLabel := currentDisplayedLabel (cells c) |}.
Proof.
  unfold toggleRunning. rewrite cells_dispatch. unfold handleStartStop.
  destruct c as [[t [|] s l] ref iv nh]; reflexivity.
Qed.

Lemma cells_reset (c : Stopwatch) : cells (reset c) = Idle.
Proof.
  unfold reset. rewrite cells_dispatch. unfold handleReset. simpl.
  reflexivity.
Qed.

Lemma cells_requestLabelSelection (c : Stopwatch) :
  cells (requestLabelSelection c)
  = if isRunning (cells c) then
      {| time := time (cells c); isRunning := isRunning (cells c);
         isSelectingLabel := true;
         currentDisplayedLabel := currentDisplayedLabel (cells c) |}
    else cells c.
Proof.
  unfold requestLabelSelection. rewrite cells_dispatch.
  unfold handleShowLabelSelection.
  destruct c as [[t [|] s l] ref iv nh]; reflexivity.
Qed.

Lemma cells_selectLabel (label : string) (c : Stopwatch) :
  cells (selectLabel label c)
  = if isRunning (cells c) then
      {| time := time (cells c); isRunning := isRunning (cells c);
         isSelectingLabel := false;
         currentDisplayedLabel := Some label |}
    else cells c.
Proof.
  unfold selectLabel. rewrite cells_dispatch. unfold handleSelectTimePoint.
  destruct c as [[t [|] s l] ref iv nh]; reflexivity.
Qed.

Lemma cells_tick (h : nat) (c : Stopwatch) :
  cells (tick h c)
  = match intervals c !! h with
    | Some _ =>
        {| time := time (cells c) + 10; isRunning := isRunning (cells c);
           isSelectingLabel := isSelectingLabel (cells c);
           currentDisplayedLabel := currentDisplayedLabel (cells c) |}
    | None => cells c
    end.
Proof.
  unfold tick. destruct (intervals c !! h); [|reflexivity].
  now rewrite cells_dispatch.
Qed.

(** A handler that leaves [isRunning] alone triggers no effect. *)
Lemma dispatch_same_running (handler : Stopwatch -> Stopwatch) (c : Stopwatch) :
  isRunning (cells (handler c)) = isRunning (cells c) ->
  dispatch handler c = handler c.
Proof.
  intros E. unfold dispatch, commit. rewrite E.
  now rewrite Bool.eqb_reflx.
Qed.

Lemma requestLabelSelection_stopped (c : Stopwatch) :
  isRunning (cells c) = false -> requestLabelSelection c = c.
Proof.
  intros E. unfold requestLabelSelection.
  rewrite dispatch_same_running; unfold handleShowLabelSelection; now rewrite E.
Qed.

Lemma selectLabel_stopped (label : string) (c : Stopwatch) :
  isRunning (cells c) = false -> selectLabel label c = c.
Proof.
  intros E. unfold selectLabel.
  rewrite dispatch_same_running; unfold handleSelectTimePoint; now rewrite E.
Qed.

End Cells.

(** ** The interval and the ref *)

Ltac unfold_component :=
  cbv [toggleRunning reset requestLabelSelection selectLabel tick
       unmount mount dispatch commit handleStartStop handleReset
       handleShowLabelSelection handleSelectTimePoint intervalCallback
       effectBody effectCleanup clearCurrent setInterval clearInterval
       setIntervalRef setIsRunning setTime setIsSelectingLabel
       setCurrentDisplayedLabel withCells Idle
       cells intervalRef intervals nextHandle
       time isRunning isSelectingLabel currentDisplayedLabel
       Bool.eqb negb Nat.eqb].

Ltac map_tidy :=
  rewrite ?delete_delete_eq, ?delete_empty, ?insert_empty, ?lookup_empty,
    ?delete_singleton_eq.

Section Intervals.

Lemma clearCurrent_idem (c : Stopwatch) :
  clearCurrent (clearCurrent c) = clearCurrent c.
Proof.
  destruct c as [s [[|h]|] iv nh]; unfold_component; simpl;
    try reflexivity.
  now rewrite delete_delete_eq.
Qed.

Lemma reset_shape (c : Stopwatch) :
  reset c
  = {| cells := Idle; intervalRef := intervalRef c;
       intervals := intervals (clearCurrent c);
       nextHandle := nextHandle c |}.
Proof.
  destruct c as [[t [|] s l] [[|h]|] iv nh]; unfold_component; simpl;
    map_tidy; reflexivity.
Qed.

Lemma mount_consistent : consistent mount.
Proof.
  split; unfold_component; intros; try discriminate; try reflexivity; lia.
Qed.

(** The two shapes of a consistent state. *)
Lemma consistent_running (c : Stopwatch) :
  consistent c -> isRunning (cells c) = true ->
  exists h, intervalRef c = Some (S h) /\ intervals c = {[ S h := 10 ]}
            /\ (S h < nextHandle c)%nat.
Proof.
  intros Hc Hr. destruct (running_live c Hc Hr) as (h & Href & Hiv).
  pose proof (ref_known c Hc h Href) as Hh.
  destruct h as [|h]; [lia|]. exists h. intuition lia.
Qed.

Lemma toggleRunning_stops (c : Stopwatch) :
  consistent c -> isRunning (cells c) = true ->
  intervals (toggleRunning c) = ∅
  /\ intervalRef (toggleRunning c) = intervalRef c
  /\ nextHandle (toggleRunning c) = nextHandle c.
Proof.
  intros Hc Hr. destruct (consistent_running c Hc Hr) as (h & Href & Hiv & _).
  destruct c as [[t r s l] ref iv nh]; simpl in *; subst.
  unfold_component; simpl; map_tidy. auto.
Qed.

Lemma toggleRunning_starts (c : Stopwatch) :
  consistent c -> isRunning (cells c) = false ->
  intervals (toggleRunning c) = {[ nextHandle c := 10 ]}
  /\ intervalRef (toggleRunning c) = Some (nextHandle c)
  /\ nextHandle (toggleRunning c) = S (nextHandle c).
Proof.
  intros Hc Hr. pose proof (stopped_clear c Hc Hr) as Hiv.
  destruct c as [[t r s l] [[|h]|] iv nh]; simpl in *; subst;
    unfold_component; simpl; map_tidy; auto.
Qed.

Lemma handleReset_clears (c : Stopwatch) :
  consistent c ->
  intervals (handleReset c) = ∅
  /\ intervalRef (handleReset c) = intervalRef c
  /\ nextHandle (handleReset c) = nextHandle c.
Proof.
  intros Hc. destruct (isRunning (cells c)) eqn:Hr.
  - destruct (consistent_running c Hc Hr) as (h & Href & Hiv & _).
    destruct c as [[t r s l] ref iv nh]; simpl in *; subst.
    unfold_component; simpl; map_tidy. auto.
  - pose proof (stopped_clear c Hc Hr) as Hiv.
    destruct c as [[t r s l] [[|h]|] iv nh]; simpl in *; subst;
      unfold_component; simpl; map_tidy; auto.
Qed.

Lemma reset_clears (c : Stopwatch) :
  consistent c ->
  intervals (reset c) = ∅
  /\ intervalRef (reset c) = intervalRef c
  /\ nextHandle (reset c) = nextHandle c.
Proof.
  intros Hc. rewrite reset_shape. simpl. repeat split.
  destruct (handleReset_clears c Hc) as (Hiv & _ & _).
  destruct c as [s [[|h]|] iv nh]; unfold_component; simpl in *; exact Hiv.
Qed.

Lemma unmount_clears (c : Stopwatch) :
  consistent c -> intervals (unmount c) = ∅.
Proof.
  intros Hc. destruct (isRunning (cells c)) eqn:Hr.
  - destruct (consistent_running c Hc Hr) as (h & Href & Hiv & _).
    destruct c as [s ref iv nh]; simpl in *; subst.
    unfold_component; simpl; map_tidy. reflexivity.
  - pose proof (stopped_clear c Hc Hr) as Hiv.
    destruct c as [s [[|h]|] iv nh]; simpl in *; subst;
      unfold_component; simpl; map_tidy; reflexivity.
Qed.

(** The cleanup that precedes the effect body when [isRunning] changed. *)
Lemma cleanup_after_handleStartStop (c : Stopwatch) :
  consistent c -> intervals (effectCleanup (handleStartStop c)) = ∅.
Proof.
  intros Hc. destruct (isRunning (cells c)) eqn:Hr.
  - destruct (consistent_running c Hc Hr) as (h & Href & Hiv & _).
    destruct c as [[t r s l] ref iv nh]; simpl in *; subst.
    unfold_component; map_tidy. reflexivity.
  - pose proof (stopped_clear c Hc Hr) as Hiv.
    destruct c as [[t r s l] [[|h]|] iv nh]; simpl in *; subst;
      unfold_component; map_tidy; reflexivity.
Qed.

(** Label operations and ticks leave the ref and the window alone. *)
Lemma requestLabelSelection_frame (c : Stopwatch) :
  intervals (requestLabelSelection c) = intervals c
  /\ intervalRef (requestLabelSelection c) = intervalRef c
  /\ nextHandle (requestLabelSelection c) = nextHandle c.
Proof.
  destruct c as [[t [|] s l] ref iv nh]; unfold_component; simpl; auto.
Qed.

Lemma selectLabel_frame (label : string) (c : Stopwatch) :
  intervals (selectLabel label c) = intervals c
  /\ intervalRef (selectLabel label c) = intervalRef c
  /\ nextHandle (selectLabel label c) = nextHandle c.
Proof.
  destruct c as [[t [|] s l] ref iv nh]; unfold_component; simpl; auto.
Qed.

Lemma tick_frame (h : nat) (c : Stopwatch) :
  intervals (tick h c) = intervals c
  /\ intervalRef (tick h c) = intervalRef c
  /\ nextHandle (tick h c) = nextHandle c.
Proof.
  destruct c as [[t [|] s l] ref iv nh]; unfold_component;
    destruct (iv !! h); auto.
Qed.

Lemma tick_cleared (h : nat) (c : Stopwatch) :
  intervals c = ∅ -> tick h c = c.
Proof. intros E. unfold tick. now rewrite E, lookup_empty. Qed.

End Intervals.

(** ** Consistency is kept by every operation *)

Section Reachable.

Lemma consistent_frame (c c' : Stopwatch) :
  consistent c ->
  intervals c' = intervals c /\ intervalRef c' = intervalRef c
    /\ nextHandle c' = nextHandle c ->
  isRunning (cells c') = isRunning (cells c) ->
  (isSelectingLabel (cells c') = true -> isRunning (cells c') = true) ->
  consistent c'.
Proof.
  intros [Hp Hk Hl Hs _] (Ei & Er & En) Erun Hsel.
  split; rewrite ?Ei, ?Er, ?En, ?Erun; auto.
  now rewrite <- Erun.
Qed.

Lemma toggleRunning_consistent (c : Stopwatch) :
  consistent c -> consistent (toggleRunning c).
Proof.
  intros Hc. pose proof (cells_toggleRunning c) as Hcells.
  destruct (isRunning (cells c)) eqn:Hr.
  - destruct (toggleRunning_stops c Hc Hr) as (Ei & Er & En).
    split; rewrite ?Ei, ?Er, ?En, ?Hcells; simpl; try discriminate; auto.
    + apply Hc.
    + apply Hc.
  - destruct (toggleRunning_starts c Hc Hr) as (Ei & Er & En).
    pose proof (handle_positive c Hc).
    split; rewrite ?Ei, ?Er, ?En, ?Hcells; simpl; try discriminate; auto.
    + intros h [= <-]. lia.
    + intros _. eauto.
Qed.

Lemma reset_consistent (c : Stopwatch) : consistent c -> consistent (reset c).
Proof.
  intros Hc. destruct (reset_clears c Hc) as (Ei & Er & En).
  split; rewrite ?Ei, ?Er, ?En, ?cells_reset; simpl; try discriminate; auto;
    apply Hc.
Qed.

Lemma requestLabelSelection_consistent (c : Stopwatch) :
  consistent c -> consistent (requestLabelSelection c).
Proof.
  intros Hc. apply (consistent_frame c); auto using requestLabelSelection_frame;
    rewrite cells_requestLabelSelection;
    destruct (isRunning (cells c)) eqn:Hr; simpl; auto.
  apply Hc.
Qed.

Lemma selectLabel_consistent (label : string) (c : Stopwatch) :
  consistent c -> consistent (selectLabel label c).
Proof.
  intros Hc. apply (consistent_frame c); auto using selectLabel_frame;
    rewrite cells_selectLabel;
    destruct (isRunning (cells c)) eqn:Hr; simpl; auto.
  apply Hc.
Qed.

Lemma tick_consistent (h : nat) (c : Stopwatch) :
  consistent c -> consistent (tick h c).
Proof.
  intros Hc. apply (consistent_frame c); auto using tick_frame;
    rewrite cells_tick; destruct (intervals c !! h); simpl; auto; apply Hc.
Qed.

Lemma perform_consistent (o : operation) (c : Stopwatch) :
  consistent c -> consistent (perform o c).
Proof.
  destruct o; simpl;
    auto using toggleRunning_consistent, reset_consistent,
      requestLabelSelection_consistent, selectLabel_consistent,
      tick_consistent.
Qed.

Lemma run_consistent (ops : list operation) :
  forall c, consistent c -> consistent (run ops c).
Proof.
  induction ops as [|o ops IH]; intros c Hc; simpl; [assumption|].
  apply IH. now apply perform_consistent.
Qed.

Lemma reachable_consistent (ops : list operation) : consistent (run ops mount).
Proof. apply run_consistent, mount_consistent. Qed.

End Reachable.

(** ** Elapsed time *)

Section Elapsed.

Lemma run_app (ops1 ops2 : list operation) (c : Stopwatch) :
  run (ops1 ++ ops2) c = run ops2 (run ops1 c).
Proof. unfold run. apply fold_left_app. Qed.

Lemma ticks_on_live_interval (h : nat) (n : nat) :
  forall c : Stopwatch,
    is_Some (intervals c !! h) ->
    cells (run (repeat (Tick h) n) c)
    = {| time := time (cells c) + 10 * N.of_nat n;
         isRunning := isRunning (cells c);
         isSelectingLabel := isSelectingLabel (cells c);
         currentDisplayedLabel := currentDisplayedLabel (cells c) |}.
Proof.
  induction n as [|n IH]; intros c Hlive.
  - simpl. destruct c as [[t r s l] ref iv nh]; simpl.
    f_equal. lia.
  - change (run (repeat (Tick h) (S n)) c)
      with (run (repeat (Tick h) n) (tick h c)).
    destruct (tick_frame h c) as (Hiv & _ & _).
    rewrite IH by (now rewrite Hiv).
    destruct Hlive as [d Hd]. rewrite cells_tick, Hd. simpl.
    f_equal. lia.
Qed.

Lemma time_step (o : operation) (c : Stopwatch) :
  time (cells (perform o c)) = 0
  \/ time (cells (perform o c)) = time (cells c)
  \/ (isTick o = true /\ time (cells (perform o c)) = time (cells c) + 10).
Proof.
  destruct o as [| | |label|h]; simpl.
  - right; left. now rewrite cells_toggleRunning.
  - left. now rewrite cells_reset.
  - right; left. rewrite cells_requestLabelSelection.
    now destruct (isRunning (cells c)).
  - right; left. rewrite cells_selectLabel.
    now destruct (isRunning (cells c)).
  - rewrite cells_tick. destruct (intervals c !! h); simpl; auto.
Qed.

Lemma run_time_bound (ops : list operation) :
  forall c : Stopwatch,
    time (cells c) mod 10 = 0 ->
    time (cells (run ops c)) mod 10 = 0
    /\ time (cells (run ops c))
       <= time (cells c) + 10 * N.of_nat (length (List.filter isTick ops)).
Proof.
  induction ops as [|o ops IH]; intros c Hc.
  - simpl. split; [assumption | lia].
  - change (run (o :: ops) c) with (run ops (perform o c)).
    destruct (time_step o c) as [E | [E | [Ho E]]].
    + destruct (IH (perform o c)) as (Hm & Hb); [now rewrite E|].
      split; [exact Hm|]. rewrite E in Hb. simpl.
      destruct (isTick o); simpl length; lia.
    + destruct (IH (perform o c)) as (Hm & Hb); [now rewrite E|].
      split; [exact Hm|]. rewrite E in Hb. simpl.
      destruct (isTick o); simpl length; lia.
    + destruct (IH (perform o c)) as (Hm & Hb).
      { rewrite E. rewrite N.Div0.add_mod, Hc. reflexivity. }
      split; [exact Hm|]. rewrite E in Hb. simpl. rewrite Ho.
      simpl length. lia.
Qed.

End Elapsed.

(** ** The time string *)

Section Display.

Lemma decimalValue_from (s : string) (v : N) :
  decimalValue s = Some v -> decimalValueFrom 0 s = Some v.
Proof. destruct s; simpl; [discriminate | auto]. Qed.

(** Two digit strings followed by the same separator split the same way. *)
Lemma split_at_separator (sep : ascii) (s1 : string) :
  digitValue sep = None ->
  forall (s2 r1 r2 : string) (a1 a2 v1 v2 : N),
    decimalValueFrom a1 s1 = Some v1 ->
    decimalValueFrom a2 s2 = Some v2 ->
    s1 +:+ String sep r1 = s2 +:+ String sep r2 ->
    s1 = s2 /\ r1 = r2.
Proof.
  intros Hsep. induction s1 as [|c1 s1 IH];
    intros [|c2 s2] r1 r2 a1 a2 v1 v2 H1 H2 E; simpl in *.
  - now inversion E.
  - inversion E; subst. now rewrite Hsep in H2.
  - inversion E; subst. now rewrite Hsep in H1.
  - inversion E as [[Ec Et]]. subst c2.
    destruct (digitValue c1) as [d|]; [|discriminate].
    destruct (IH s2 r1 r2 _ _ v1 v2 H1 H2 Et) as (-> & ->). auto.
Qed.

Lemma pad_value (n : N) : decimalValueFrom 0 (pad n) = Some n.
Proof. apply decimalValue_from, pad_zeroPadded. Qed.

Lemma pad_inj (a b : N) : pad a = pad b -> a = b.
Proof.
  intros E. pose proof (pad_value a) as Ha. rewrite E, pad_value in Ha.
  now inversion Ha.
Qed.

Lemma formatTime_fields (a b : N) :
  formatTime a = formatTime b ->
  a / 60000 = b / 60000
  /\ (a mod 60000) / 1000 = (b mod 60000) / 1000
  /\ (a mod 1000) / 10 = (b mod 1000) / 10.
Proof.
  unfold formatTime. cbv zeta. intros E.
  apply (split_at_separator ":" _ eq_refl _ _ _ 0 0 _ _
           (pad_value _) (pad_value _)) in E.
  destruct E as (Em & E).
  apply (split_at_separator "." _ eq_refl _ _ _ 0 0 _ _
           (pad_value _) (pad_value _)) in E.
  destruct E as (Es & Ec).
  auto using pad_inj.
Qed.

(** The three fields are those of the time in hundredths. *)
Lemma div10_drop (r y : N) : r < 10 -> (r + 10 * y) / 10 = y.
Proof. intros Hr. symmetry. apply N.div_unique with r; [assumption | lia]. Qed.

Lemma minutes_of_centis (a : N) : a / 60000 = (a / 10) / 6000.
Proof. change 60000 with (10 * 6000). now rewrite N.Div0.div_div. Qed.

Lemma seconds_of_centis (a : N) :
  (a mod 60000) / 1000 = ((a / 10) mod 6000) / 100.
Proof.
  change 60000 with (10 * 6000). change 1000 with (10 * 100).
  rewrite N.Div0.mod_mul_r, <- N.Div0.div_div.
  rewrite div10_drop by (apply N.mod_lt; lia). reflexivity.
Qed.

Lemma hundredths_of_centis (a : N) : (a mod 1000) / 10 = (a / 10) mod 100.
Proof.
  change 1000 with (10 * 100). rewrite N.Div0.mod_mul_r.
  apply div10_drop. apply N.mod_lt; lia.
Qed.

Lemma centis_of_fields (x : N) :
  x = 6000 * (x / 6000) + 100 * ((x mod 6000) / 100) + x mod 100.
Proof.
  pose proof (N.div_mod x 6000 ltac:(lia)) as E1.
  pose proof (N.div_mod (x mod 6000) 100 ltac:(lia)) as E2.
  assert (E3 : (x mod 6000) mod 100 = x mod 100).
  { change 6000 with (100 * 60). rewrite N.Div0.mod_mul_r.
    rewrite (N.mul_comm 100), N.Div0.mod_add. apply N.Div0.mod_mod. }
  lia.
Qed.

Lemma formatTime_length (ms : N) :
  String.length (formatTime ms)
  = (String.length (pad (ms / 60000)) + 6)%nat.
Proof.
  assert (Hs : (ms mod 60000) / 1000 < 100).
  { apply N.Div0.div_lt_upper_bound. pose proof (N.mod_lt ms 60000). lia. }
  assert (Hc : (ms mod 1000) / 10 < 100).
  { apply N.Div0.div_lt_upper_bound. pose proof (N.mod_lt ms 1000). lia. }
  unfold formatTime. cbv zeta.
  rewrite !length_app_string, (pad_length_two _ Hs), (pad_length_two _ Hc).
  simpl. lia.
Qed.


(** Equal strings come from times that agree up to the hundredth. *)
Lemma formatTime_centis (a b : N) :
  formatTime a = formatTime b -> a / 10 = b / 10.
Proof.
  intros E. apply formatTime_fields in E. destruct E as (Em & Es & Ec).
  rewrite !minutes_of_centis in Em. rewrite !seconds_of_centis in Es.
  rewrite !hundredths_of_centis in Ec.
  rewrite (centis_of_fields (a / 10)), (centis_of_fields (b / 10)).
  now rewrite Em, Es, Ec.
Qed.

End Display.

(** ** Double-precision arithmetic on safe integers *)

Section DoubleArithmetic.

Import Binary64.

Lemma pow2_mono (s t : N) : s <= t -> 2 ^ s <= 2 ^ t.
Proof. intros H. apply N.pow_le_mono_r; [discriminate | exact H]. Qed.

Lemma pow2_pos (s : N) : 0 < 2 ^ s.
Proof. apply N.neq_0_lt_0, N.pow_nonzero. discriminate. Qed.

(** For a safe integer [a] the quotient keeps fractional bits: either
    the exponent is negative and [b] is below twice its weight, or the
    quotient is [a] itself. *)
Lemma exponent_safe (a b : N) :
  0 < a -> a < 2 ^ 53 -> 0 < b ->
  ((exponent a b < 0)%Z /\ b < 2 * 2 ^ Z.to_N (- exponent a b))
  \/ (exponent a b = 0%Z /\ b = 1).
Proof.
  intros Ha Hsafe Hb.
  assert (Hla : N.log2 a < 53) by (now apply N.log2_lt_pow2).
  destruct (N.log2_spec b Hb) as (Hlb1 & Hlb2).
  rewrite N.pow_succ_r' in Hlb2.
  unfold exponent.
  set (e0 := (Z.of_N (N.log2 a) - Z.of_N (N.log2 b) - 52)%Z).
  destruct (scaled a b e0) as [n0 d0].
  destruct (n0 / d0 <? 2 ^ 52).
  - left. split; [lia|].
    assert (Hs : N.log2 b <= Z.to_N (- (e0 - 1))) by lia.
    pose proof (pow2_mono _ _ Hs). lia.
  - destruct (Z.eq_dec e0 0%Z) as [E0 | E0].
    + right. split; [exact E0|].
      assert (N.log2 b = 0) by lia.
      replace (N.log2 b) with 0 in Hlb2 by lia. simpl in Hlb2. lia.
    + left. split; [lia|].
      assert (Hs : N.log2 b <= Z.to_N (- e0)) by lia.
      pose proof (pow2_mono _ _ Hs). lia.
Qed.

(** Rounding the scaled quotient up does not carry into the integer
    part when the divisor is below twice the weight. *)
Lemma round_up_stays (a b P : N) :
  0 < b -> 0 < P -> b < 2 * P ->
  b <= 2 * ((a * P) mod b) ->
  (a * P / b + 1) / P = a / b.
Proof.
  intros Hb HP Hlt Hup.
  set (M := a * P / b). set (R := (a * P) mod b) in *.
  assert (EM : a * P = b * M + R) by (apply N.div_mod; lia).
  assert (HR : R < b) by (apply N.mod_lt; lia).
  assert (Ea : a = b * (a / b) + a mod b) by (apply N.div_mod; lia).
  assert (Hr0 : a mod b < b) by (apply N.mod_lt; lia).
  assert (EQ : M / P = a / b).
  { unfold M. rewrite N.Div0.div_div. apply N.Div0.div_mul_cancel_r. lia. }
  assert (EMP : M = P * (M / P) + M mod P) by (apply N.div_mod; lia).
  assert (HMP : M mod P < P) by (apply N.mod_lt; lia).
  rewrite EQ in EMP.
  set (Q := a / b) in *. set (r0 := a mod b) in *. set (t := M mod P) in *.
  symmetry. apply N.div_unique with (t + 1); [|lia].
  destruct (N.lt_ge_cases (t + 1) P) as [Hok | Hbad]; [exact Hok|].
  exfalso.
  assert (Et : t = P - 1) by lia.
  assert (E1 : a * P = b * Q * P + r0 * P) by (rewrite Ea at 1; ring).
  assert (E2 : b * M = b * Q * P + b * P - b).
  { rewrite EMP, Et. rewrite N.mul_add_distr_l, N.mul_sub_distr_l.
    assert (b * 1 <= b * P) by (apply N.mul_le_mono_l; lia).
    rewrite N.mul_1_r in *. rewrite (N.mul_comm P Q), N.mul_assoc. lia. }
  assert (E3 : r0 * P < b * P) by (apply N.mul_lt_mono_pos_r; lia).
  assert (E4 : (r0 + 1) * P <= b * P) by (apply N.mul_le_mono_r; lia).
  rewrite N.mul_add_distr_r, N.mul_1_l in E4.
  lia.
Qed.

Lemma floorDiv_safe (a b : N) :
  0 < b -> a < 2 ^ 53 -> floorDiv a b = a / b.
Proof.
  intros Hb Hsafe. unfold floorDiv, roundRatio.
  destruct (N.eqb_spec a 0) as [-> | Ha].
  - simpl. now rewrite N.Div0.div_0_l.
  - destruct (exponent_safe a b) as [(He & Hlt) | (He & ->)];
      [lia | assumption | assumption | |].
    + assert (Hneg : (exponent a b <? 0)%Z = true) by (apply Z.ltb_lt; lia).
      unfold scaled, floor. rewrite Hneg. cbv beta iota zeta. rewrite Hneg.
      set (P := 2 ^ Z.to_N (- exponent a b)) in *.
      assert (HP : 0 < P) by apply pow2_pos.
      set (M := a * P / b). set (R := (a * P) mod b).
      destruct ((b <? 2 * R) || (2 * R =? b) && N.odd M) eqn:Hup.
      * apply round_up_stays; try assumption.
        apply Bool.orb_true_iff in Hup. destruct Hup as [H | H].
        -- apply N.ltb_lt in H. fold R. lia.
        -- apply Bool.andb_true_iff in H. destruct H as (H & _).
           apply N.eqb_eq in H. fold R. lia.
      * unfold M. rewrite N.Div0.div_div. apply N.Div0.div_mul_cancel_r. lia.
    + rewrite He. cbn [scaled floor Z.ltb Z.compare Z.to_N Z.opp].
      rewrite N.pow_0_r, !N.mul_1_r, N.mod_1_r, N.div_1_r. reflexivity.
Qed.

Lemma round53_safe (v : N) : v < 2 ^ 53 -> round53 v = v.
Proof.
  intros H. change (round53 v) with (floorDiv v 1).
  rewrite floorDiv_safe by (assumption || reflexivity). apply N.div_1_r.
Qed.

Lemma add_safe (a b : N) : a + b < 2 ^ 53 -> add a b = a + b.
Proof. intros H. exact (round53_safe (a + b) H). Qed.

Lemma round53_large (v : N) : 2 ^ 53 <= v -> 2 ^ 53 <= round53 v.
Proof.
  intros Hv. unfold round53, roundRatio.
  assert (Hpos : 0 < v) by (pose proof (pow2_pos 53); lia).
  destruct (N.eqb_spec v 0) as [? | _]; [lia|].
  assert (Hl : 53 <= N.log2 v) by (now apply N.log2_le_pow2).
  destruct (N.log2_spec v Hpos) as (Hlo & _).
  assert (Hex : exponent v 1 = (Z.of_N (N.log2 v) - 52)%Z
                /\ 2 ^ 52 <= v / (1 * 2 ^ Z.to_N (exponent v 1))).
  { unfold exponent. change (N.log2 1) with 0.
    set (e0 := (Z.of_N (N.log2 v) - Z.of_N 0 - 52)%Z).
    assert (Hs : scaled v 1 e0 = (v, 1 * 2 ^ Z.to_N e0)).
    { unfold scaled. destruct (Z.ltb_spec e0 0); [lia | reflexivity]. }
    rewrite Hs.
    assert (Hq : 2 ^ 52 <= v / (1 * 2 ^ Z.to_N e0)).
    { rewrite N.mul_1_l. apply N.div_le_lower_bound.
      - apply N.pow_nonzero. discriminate.
      - rewrite N.mul_comm, <- N.pow_add_r.
        replace (52 + Z.to_N e0) with (N.log2 v) by lia. exact Hlo. }
    destruct (N.ltb_spec (v / (1 * 2 ^ Z.to_N e0)) (2 ^ 52)); [lia|].
    split; [lia | exact Hq]. }
  destruct Hex as (He & Hq).
  assert (Hneg : (exponent v 1 <? 0)%Z = false) by (apply Z.ltb_ge; lia).
  unfold scaled, floor. rewrite Hneg. cbv beta iota zeta. rewrite Hneg.
  set (P := 2 ^ Z.to_N (exponent v 1)) in *.
  assert (HP : 2 <= P).
  { change 2 with (2 ^ 1). apply pow2_mono. lia. }
  set (M := v / (1 * P)) in *.
  assert (HM : M <= (if (1 * P <? 2 * (v mod (1 * P)))
                        || (2 * (v mod (1 * P)) =? 1 * P) && N.odd M
                     then M + 1 else M)).
  { destruct ((1 * P <? 2 * (v mod (1 * P)))
              || (2 * (v mod (1 * P)) =? 1 * P) && N.odd M); lia. }
  change (2 ^ 53) with (2 ^ 52 * 2).
  apply N.mul_le_mono; lia.
Qed.

Lemma exponent_large (v : N) :
  2 ^ 53 <= v -> exponent v 1 = (Z.of_N (N.log2 v) - 52)%Z.
Proof.
  intros Hv.
  assert (Hpos : 0 < v) by (pose proof (pow2_pos 53); lia).
  assert (Hl : 53 <= N.log2 v) by (now apply N.log2_le_pow2).
  destruct (N.log2_spec v Hpos) as (Hlo & _).
  unfold exponent. change (N.log2 1) with 0.
  set (e0 := (Z.of_N (N.log2 v) - Z.of_N 0 - 52)%Z).
  assert (Hs : scaled v 1 e0 = (v, 1 * 2 ^ Z.to_N e0)).
  { unfold scaled. destruct (Z.ltb_spec e0 0); [lia | reflexivity]. }
  rewrite Hs.
  assert (Hq : 2 ^ 52 <= v / (1 * 2 ^ Z.to_N e0)).
  { rewrite N.mul_1_l. apply N.div_le_lower_bound.
    - apply N.pow_nonzero. discriminate.
    - rewrite N.mul_comm, <- N.pow_add_r.
      replace (52 + Z.to_N e0) with (N.log2 v) by lia. exact Hlo. }
  destruct (N.ltb_spec (v / (1 * 2 ^ Z.to_N e0)) (2 ^ 52)); lia.
Qed.

(** Between [2^53] and [2^54] the doubles are the even numbers. *)
Lemma round53_even (v : N) :
  v < 2 ^ 54 -> N.even v = true -> round53 v = v.
Proof.
  intros Hv Heven.
  destruct (N.lt_ge_cases v (2 ^ 53)) as [Hs | Hl];
    [now apply round53_safe|].
  assert (Hpos : 0 < v) by (pose proof (pow2_pos 53); lia).
  assert (Hlog : N.log2 v = 53).
  { apply N.le_antisymm.
    - apply N.lt_succ_r. now apply N.log2_lt_pow2.
    - now apply N.log2_le_pow2. }
  assert (He : exponent v 1 = 1%Z)
    by (rewrite exponent_large by exact Hl; rewrite Hlog; reflexivity).
  unfold round53, roundRatio.
  destruct (N.eqb_spec v 0) as [? | _]; [lia|].
  rewrite He. cbn [scaled floor Z.ltb Z.compare Z.to_N Z.opp].
  change (1 * 2 ^ 1) with 2. change (2 ^ 1) with 2.
  assert (Hmod : v mod 2 = 0).
  { apply N.even_spec in Heven. destruct Heven as [k ->].
    rewrite N.mul_comm. apply N.Div0.mod_mul. }
  rewrite Hmod. change (2 <? 2 * 0) with false.
  change (2 * 0 =? 2) with false. cbn [orb andb].
  pose proof (N.div_mod v 2 ltac:(discriminate)) as E.
  rewrite Hmod in E. lia.
Qed.

Lemma add_even (a b : N) :
  a + b < 2 ^ 54 -> N.even (a + b) = true -> add a b = a + b.
Proof. intros H1 H2. exact (round53_even (a + b) H1 H2). Qed.

End DoubleArithmetic.

(** ** Printing doubles *)

Section DoublePrinting.

Import Binary64.

(** For a safe integer the shortest decimal that reads back as the same
    double is the integer itself. *)
Lemma shortest_safe (fuel : nat) :
  forall k n m : N, 0 < m -> m < 2 ^ 53 -> shortest fuel k n m = m.
Proof.
  induction fuel as [|fuel IH]; intros k n m Hpos Hsafe; [reflexivity|].
  cbn [shortest]. cbv zeta.
  set (scale := 10 ^ (n - k)).
  assert (Hscale : scale <> 0) by (apply N.pow_nonzero; discriminate).
  set (lo := m / scale * scale).
  assert (Hlo : lo <= m).
  { unfold lo. rewrite N.mul_comm. now apply N.Div0.mul_div_le. }
  assert (Hhi : m < lo + scale).
  { unfold lo. pose proof (N.mul_succ_div_gt m scale Hscale). lia. }
  rewrite (round53_safe lo) by lia.
  assert (Hno : (round53 (lo + scale) =? m) = false).
  { apply N.eqb_neq.
    destruct (N.lt_ge_cases (lo + scale) (2 ^ 53)) as [Hs | Hl].
    - rewrite round53_safe by exact Hs. lia.
    - pose proof (round53_large _ Hl). lia. }
  rewrite Hno, Bool.andb_false_r.
  destruct (N.eqb_spec lo m) as [E | _]; [exact E|].
  now apply IH.
Qed.

Lemma toString_safe (m : N) : m < 2 ^ 53 -> toString m = JS.toString m.
Proof.
  intros Hsafe. unfold toString.
  destruct (N.eqb_spec m 0) as [-> | Hm]; [reflexivity|]. cbv zeta.
  rewrite shortest_safe by lia.
  assert (Hlt : (m <? 10 ^ 21) = true).
  { apply N.ltb_lt. eapply N.lt_trans; [exact Hsafe | reflexivity]. }
  now rewrite Hlt.
Qed.

Lemma pad64_safe (n : N) : n < 2 ^ 53 -> OnDoubles.pad n = pad n.
Proof. intros H. unfold OnDoubles.pad, pad. now rewrite toString_safe. Qed.

(** On safe integers [formatTime] on doubles is [formatTime] on
    naturals. *)
Lemma formatTime64_safe (ms : N) :
  ms <= MAX_SAFE_INTEGER -> OnDoubles.formatTime ms = formatTime ms.
Proof.
  intros Hsafe. unfold MAX_SAFE_INTEGER in Hsafe.
  change (2 ^ 53 - 1) with 9007199254740991 in Hsafe.
  assert (Hr1 : ms mod 60000 < 60000) by (now apply N.mod_lt).
  assert (Hr2 : ms mod 1000 < 1000) by (now apply N.mod_lt).
  assert (Hdiv : forall x d, x / d <= x).
  { intros x d. destruct (N.eq_dec d 0) as [-> | Hd].
    - rewrite N.div_0_r. apply N.le_0_l.
    - apply N.Div0.div_le_upper_bound.
      rewrite <- (N.mul_1_l x) at 1. apply N.mul_le_mono_r. lia. }
  pose proof (Hdiv ms 60000) as Hm.
  pose proof (Hdiv (ms mod 60000) 1000) as Hs.
  pose proof (Hdiv (ms mod 1000) 10) as Hc.
  set (r1 := ms mod 60000) in *. set (r2 := ms mod 1000) in *.
  set (qm := ms / 60000) in *. set (qs := r1 / 1000) in *.
  set (qc := r2 / 10) in *.
  unfold OnDoubles.formatTime, formatTime, rem. cbv zeta.
  fold r1 r2.
  rewrite (floorDiv_safe ms 60000), (floorDiv_safe r1 1000),
    (floorDiv_safe r2 10)
    by (reflexivity || (change (2 ^ 53) with 9007199254740992; lia)).
  fold qm qs qc.
  now rewrite !pad64_safe by (change (2 ^ 53) with 9007199254740992; lia).
Qed.

End DoublePrinting.

(** ** The component on doubles *)

Section DoubleComponent.

Lemma cells_tick64 (h : nat) (c : Stopwatch) :
  cells (OnDoubles.tick h c)
  = match intervals c !! h with
    | Some _ =>
        {| time := Binary64.add (time (cells c)) 10;
           isRunning := isRunning (cells c);
           isSelectingLabel := isSelectingLabel (cells c);
           currentDisplayedLabel := currentDisplayedLabel (cells c) |}
    | None => cells c
    end.
Proof.
  unfold OnDoubles.tick. destruct (intervals c !! h); [|reflexivity].
  now rewrite cells_dispatch.
Qed.

Lemma tick64_frame (h : nat) (c : Stopwatch) :
  intervals (OnDoubles.tick h c) = intervals c
  /\ intervalRef (OnDoubles.tick h c) = intervalRef c
  /\ nextHandle (OnDoubles.tick h c) = nextHandle c.
Proof.
  destruct c as [[t [|] s l] ref iv nh];
    unfold OnDoubles.tick, OnDoubles.intervalCallback;
    cbn [intervals cells]; destruct (iv !! h); auto.
Qed.

Lemma tick64_consistent (h : nat) (c : Stopwatch) :
  consistent c -> consistent (OnDoubles.tick h c).
Proof.
  intros Hc. apply (consistent_frame c); auto using tick64_frame;
    rewrite cells_tick64; destruct (intervals c !! h); simpl; auto; apply Hc.
Qed.

Lemma perform64_consistent (o : operation) (c : Stopwatch) :
  consistent c -> consistent (OnDoubles.perform o c).
Proof.
  destruct o; simpl;
    auto using toggleRunning_consistent, reset_consistent,
      requestLabelSelection_consistent, selectLabel_consistent,
      tick64_consistent.
Qed.

Lemma run64_consistent (ops : list operation) :
  forall c, consistent c -> consistent (OnDoubles.run ops c).
Proof.
  induction ops as [|o ops IH]; intros c Hc; simpl; [assumption|].
  apply IH. now apply perform64_consistent.
Qed.

Lemma reachable64_consistent (ops : list operation) :
  consistent (OnDoubles.run ops mount).
Proof. apply run64_consistent, mount_consistent. Qed.

Lemma run64_app (ops1 ops2 : list operation) (c : Stopwatch) :
  OnDoubles.run (ops1 ++ ops2) c = OnDoubles.run ops2 (OnDoubles.run ops1 c).
Proof. unfold OnDoubles.run. apply fold_left_app. Qed.

(** While the sum is a safe integer, a tick on doubles is a tick on
    naturals. *)
Lemma tick64_safe (h : nat) (c : Stopwatch) :
  time (cells c) + 10 <= Binary64.MAX_SAFE_INTEGER ->
  OnDoubles.tick h c = tick h c.
Proof.
  intros Hsafe. unfold OnDoubles.tick, tick.
  destruct (intervals c !! h); [|reflexivity].
  unfold OnDoubles.intervalCallback, intervalCallback.
  destruct c as [[t r s l] ref iv nh]. cbn [cells time] in Hsafe.
  unfold dispatch, setTime, withCells. cbn [cells time isRunning].
  rewrite add_safe; [reflexivity|].
  unfold Binary64.MAX_SAFE_INTEGER in Hsafe. lia.
Qed.

Lemma perform64_safe (o : operation) (c : Stopwatch) :
  (isTick o = true -> time (cells c) + 10 <= Binary64.MAX_SAFE_INTEGER) ->
  OnDoubles.perform o c = perform o c.
Proof.
  destruct o; intros H; try reflexivity.
  apply tick64_safe. now apply H.
Qed.

Lemma run64_safe (ops : list operation) :
  forall c : Stopwatch,
    time (cells c) + 10 * N.of_nat (length (List.filter isTick ops))
    <= Binary64.MAX_SAFE_INTEGER ->
    OnDoubles.run ops c = run ops c.
Proof.
  induction ops as [|o ops IH]; intros c Hsafe; [reflexivity|].
  change (OnDoubles.run (o :: ops) c)
    with (OnDoubles.run ops (OnDoubles.perform o c)).
  change (run (o :: ops) c) with (run ops (perform o c)).
  assert (Estep : OnDoubles.perform o c = perform o c).
  { apply perform64_safe. intros Ho. simpl in Hsafe. rewrite Ho in Hsafe.
    simpl length in Hsafe. lia. }
  rewrite Estep. apply IH.
  simpl in Hsafe.
  destruct (time_step o c) as [E | [E | [Ho E]]]; rewrite E.
  - destruct (isTick o); simpl length in Hsafe; lia.
  - destruct (isTick o); simpl length in Hsafe; lia.
  - rewrite Ho in Hsafe. simpl length in Hsafe. lia.
Qed.

Lemma ticks_repeat (h : nat) (n : nat) :
  length (List.filter isTick (repeat (Tick h) n)) = n.
Proof. induction n as [|n IH]; simpl; [reflexivity | now rewrite IH]. Qed.

(** No operation but a tick increases the time, whatever the
    arithmetic. *)
Lemma time64_not_tick (o : operation) (c : Stopwatch) :
  isTick o = false -> time (cells (OnDoubles.perform o c)) <= time (cells c).
Proof.
  destruct o as [| | |label|h]; intros Ho; try discriminate Ho; simpl.
  - rewrite cells_toggleRunning. simpl. lia.
  - rewrite cells_reset. simpl. lia.
  - rewrite cells_requestLabelSelection.
    destruct (isRunning (cells c)); simpl; lia.
  - rewrite cells_selectLabel.
    destruct (isRunning (cells c)); simpl; lia.
Qed.

(** Up to [2^54] every multiple of 10 is a double, so ticks from zero
    still add exactly 10 there. *)
Lemma ticks64_below_2_54 (h : nat) (n : nat) :
  forall c : Stopwatch,
    is_Some (intervals c !! h) ->
    N.even (time (cells c)) = true ->
    time (cells c) + 10 * N.of_nat n < 2 ^ 54 ->
    cells (OnDoubles.run (repeat (Tick h) n) c)
    = {| time := time (cells c) + 10 * N.of_nat n;
         isRunning := isRunning (cells c);
         isSelectingLabel := isSelectingLabel (cells c);
         currentDisplayedLabel := currentDisplayedLabel (cells c) |}
    /\ intervals (OnDoubles.run (repeat (Tick h) n) c) = intervals c
    /\ intervalRef (OnDoubles.run (repeat (Tick h) n) c) = intervalRef c
    /\ nextHandle (OnDoubles.run (repeat (Tick h) n) c) = nextHandle c.
Proof.
  induction n as [|n IH]; intros c Hlive Heven Hbound.
  - simpl. destruct c as [[t r s l] ref iv nh]; simpl.
    repeat split. f_equal. lia.
  - change (OnDoubles.run (repeat (Tick h) (S n)) c)
      with (OnDoubles.run (repeat (Tick h) n) (OnDoubles.tick h c)).
    destruct (tick64_frame h c) as (Hiv & Href & Hnh).
    assert (Hcells : cells (OnDoubles.tick h c)
                     = {| time := time (cells c) + 10;
                          isRunning := isRunning (cells c);
                          isSelectingLabel := isSelectingLabel (cells c);
                          currentDisplayedLabel :=
                            currentDisplayedLabel (cells c) |}).
    { rewrite cells_tick64. destruct Hlive as [d ->].
      rewrite add_even; [reflexivity | lia |].
      rewrite N.even_add, Heven. reflexivity. }
    destruct (IH (OnDoubles.tick h c)) as (E & Ei & Er & En).
    + now rewrite Hiv.
    + rewrite Hcells. cbn [time]. rewrite N.even_add, Heven. reflexivity.
    + rewrite Hcells. cbn [time]. lia.
    + rewrite E, Ei, Er, En, Hcells. cbn [time isRunning isSelectingLabel
        currentDisplayedLabel]. repeat split; try assumption.
      f_equal. lia.
Qed.

(** [lateClock] is what a clock started at mount reaches by ticks alone. *)
Lemma ticks_to_lateClock (n : nat) :
  10 * N.of_nat n = 18014398509481980 ->
  OnDoubles.run (ToggleRunning :: repeat (Tick 1) n) mount = lateClock.
Proof.
  intros Hn.
  change (OnDoubles.run (ToggleRunning :: repeat (Tick 1) n) mount)
    with (OnDoubles.run (repeat (Tick 1) n) (toggleRunning mount)).
  destruct (ticks64_below_2_54 1 n (toggleRunning mount))
    as (E & Ei & Er & En).
  - exists 10. vm_compute. reflexivity.
  - reflexivity.
  - change (time (cells (toggleRunning mount))) with 0.
    rewrite N.add_0_l, Hn. reflexivity.
  - change (time (cells (toggleRunning mount))) with 0 in E.
    rewrite N.add_0_l, Hn in E.
    destruct (OnDoubles.run (repeat (Tick 1) n) (toggleRunning mount))
      as [s ref iv nh].
    cbn [cells intervals intervalRef nextHandle] in E, Ei, Er, En.
    subst. vm_compute. reflexivity.
Qed.

Lemma lateClock_reached :
  exists n : nat,
    OnDoubles.run (ToggleRunning :: repeat (Tick 1) n) mount = lateClock.
Proof.
  exists (N.to_nat 1801439850948198). apply ticks_to_lateClock.
  rewrite N2Nat.id. reflexivity.
Qed.

End DoubleComponent.

(** * The claims *)

(** C1.  The component mounts in the idle state (no time elapsed, not
    running, no selection open, no label shown), and after every finite
    sequence of toggleRunning, reset, requestLabelSelection, selectLabel
    and tick the label selection is open only if the clock is running. *)
Theorem selecting_implies_running :
  cells mount = Idle
  /\ forall ops : list operation,
       isSelectingLabel (cells (run ops mount)) = true ->
       isRunning (cells (run ops mount)) = true.
Proof.
  split; [reflexivity|].
  intros ops. apply selecting_running, reachable_consistent.
Qed.

Lemma selecting_implies_running_witness :
  isSelectingLabel
    (cells (run [ToggleRunning; RequestLabelSelection] mount)) = true
  /\ isRunning
       (cells (run [ToggleRunning; RequestLabelSelection] mount)) = true.
Proof.
  split; [vm_compute; reflexivity|].
  apply (proj2 selecting_implies_running
               [ToggleRunning; RequestLabelSelection]).
  vm_compute; reflexivity.
Defined.




(** C3.  toggleRunning flips [isRunning]; when it stops the clock it also
    closes the label selection; when it starts the clock the elapsed
    time, the selection flag and the displayed label stay as they were.
    It is a total function: there is no state on which it fails. *)
Theorem toggleRunning_flips (c : Stopwatch) :
  isRunning (cells (toggleRunning c)) = negb (isRunning (cells c))
  /\ (isRunning (cells c) = true ->
      isSelectingLabel (cells (toggleRunning c)) = false)
  /\ (isRunning (cells c) = false ->
      time (cells (toggleRunning c)) = time (cells c)
      /\ isSelectingLabel (cells (toggleRunning c))
         = isSelectingLabel (cells c)
      /\ currentDisplayedLabel (cells (toggleRunning c))
         = currentDisplayedLabel (cells c)).
Proof.
  rewrite cells_toggleRunning. simpl.
  split; [reflexivity|].
  split; intros E; rewrite E; auto.
Qed.

Lemma toggleRunning_flips_witness :
  isRunning (cells (toggleRunning mount)) = true
  /\ isSelectingLabel (cells (toggleRunning (toggleRunning mount))) = false
  /\ isRunning (cells mount) = false
  /\ time (cells (toggleRunning mount)) = time (cells mount).
Proof.
  split; [vm_compute; reflexivity|]. split; [|split; [reflexivity|]].
  - apply (proj1 (proj2 (toggleRunning_flips (toggleRunning mount)))).
    vm_compute; reflexivity.
  - apply (proj2 (proj2 (toggleRunning_flips mount))). reflexivity.
Defined.

(** C4.  reset turns every state, running or not, into the idle one:
    no time elapsed, not running, no selection open, no label shown.
    In particular start, selectLabel, stop, reset brings the four state
    cells back to what they were at mount. *)
Theorem reset_to_idle :
  (forall c : Stopwatch,
     cells (reset c)
     = {| time := 0; isRunning := false; isSelectingLabel := false;
          currentDisplayedLabel := None |})
  /\ cells (run [ToggleRunning; SelectLabel "1st Half"; ToggleRunning; Reset]
                mount)
     = cells mount
  /\ cells mount
     = {| time := 0; isRunning := false; isSelectingLabel := false;
          currentDisplayedLabel := None |}.
Proof.
  split; [exact cells_reset|]. split; vm_compute; reflexivity.
Qed.

(** C5.  While the clock runs, selectLabel shows the given label, whatever
    string it is and whatever was shown before, and closes the selection,
    leaving time and [isRunning] alone; while it is stopped, selectLabel
    changes nothing.  Start, requestLabelSelection, selectLabel "2nd Half"
    ends running, selection closed, "2nd Half" shown (a string that is
    not among [timePointLabels]). *)
Theorem selectLabel_contract :
  (forall (label : string) (c : Stopwatch),
     isRunning (cells c) = true ->
     cells (selectLabel label c)
     = {| time := time (cells c); isRunning := true;
          isSelectingLabel := false;
          currentDisplayedLabel := Some label |})
  /\ (forall (label : string) (c : Stopwatch),
        isRunning (cells c) = false -> selectLabel label c = c)
  /\ cells (run [ToggleRunning; RequestLabelSelection; SelectLabel "2nd Half"]
                mount)
     = {| time := 0; isRunning := true; isSelectingLabel := false;
          currentDisplayedLabel := Some "2nd Half"%string |}
  /\ ~ In "2nd Half"%string timePointLabels.
Proof.
  split; [|split; [exact selectLabel_stopped|]].
  - intros label c E. rewrite cells_selectLabel, E. reflexivity.
  - split; [vm_compute; reflexivity|].
    simpl. intros H. repeat (destruct H as [H|H]; [discriminate H|]). exact H.
Qed.

Lemma selectLabel_contract_witness :
  isRunning (cells (toggleRunning mount)) = true
  /\ currentDisplayedLabel
       (cells (selectLabel "Intervallo" (toggleRunning mount)))
     = Some "Intervallo"%string
  /\ isRunning (cells mount) = false
  /\ selectLabel "Intervallo" mount = mount.
Proof.
  split; [vm_compute; reflexivity|]. split; [|split; [reflexivity|]].
  - rewrite (proj1 selectLabel_contract "Intervallo"%string
                   (toggleRunning mount)); [reflexivity|].
    vm_compute; reflexivity.
  - apply (proj1 (proj2 selectLabel_contract)). reflexivity.
Defined.

(** C6.  While the clock runs, requestLabelSelection opens the selection
    and leaves time, [isRunning] and the displayed label alone; while it
    is stopped the call is ignored: the whole state, the closed selection
    included, stays as it is, and nothing is signalled. *)
Theorem requestLabelSelection_contract (c : Stopwatch) :
  (isRunning (cells c) = true ->
   cells (requestLabelSelection c)
   = {| time := time (cells c); isRunning := true;
        isSelectingLabel := true;
        currentDisplayedLabel := currentDisplayedLabel (cells c) |})
  /\ (isRunning (cells c) = false -> requestLabelSelection c = c).
Proof.
  split; [|apply requestLabelSelection_stopped].
  intros E. rewrite cells_requestLabelSelection, E. reflexivity.
Qed.

Lemma requestLabelSelection_contract_witness :
  isRunning (cells (toggleRunning mount)) = true
  /\ isSelectingLabel (cells (requestLabelSelection (toggleRunning mount)))
     = true
  /\ isRunning (cells mount) = false
  /\ requestLabelSelection mount = mount
  /\ isSelectingLabel (cells (requestLabelSelection mount)) = false.
Proof.
  split; [vm_compute; reflexivity|]. split; [|split; [reflexivity|]].
  - rewrite (proj1 (requestLabelSelection_contract (toggleRunning mount)));
      [reflexivity|]. vm_compute; reflexivity.
  - assert (E : requestLabelSelection mount = mount)
      by (apply (proj2 (requestLabelSelection_contract mount)); reflexivity).
    split; [exact E|]. rewrite E. reflexivity.
Defined.

(** C7.  On doubles, as the source adds.  In every reachable state in
    which the clock runs, exactly one interval is live and its delay is
    10 ms; while the sum stays within [Number.MAX_SAFE_INTEGER], its
    firing adds exactly 10 to the elapsed time and changes nothing else,
    and so does the firing of any live interval in any state; no
    operation other than a tick ever increases the elapsed time; and
    start, three ticks, stop ends at 30 ms, stopped. *)
Theorem tick_drives_time :
  (forall ops : list operation,
     isRunning (cells (OnDoubles.run ops mount)) = true ->
     time (cells (OnDoubles.run ops mount)) + 10
     <= Binary64.MAX_SAFE_INTEGER ->
     exists h : nat,
       intervals (OnDoubles.run ops mount) = {[ h := 10 ]}
       /\ cells (OnDoubles.tick h (OnDoubles.run ops mount))
          = {| time := time (cells (OnDoubles.run ops mount)) + 10;
               isRunning := true;
               isSelectingLabel :=
                 isSelectingLabel (cells (OnDoubles.run ops mount));
               currentDisplayedLabel :=
                 currentDisplayedLabel (cells (OnDoubles.run ops mount)) |})
  /\ (forall (c : Stopwatch) (h : nat),
        is_Some (intervals c !! h) ->
        time (cells c) + 10 <= Binary64.MAX_SAFE_INTEGER ->
        time (cells (OnDoubles.tick h c)) = time (cells c) + 10)
  /\ (forall (o : operation) (c : Stopwatch),
        isTick o = false ->
        time (cells (OnDoubles.perform o c)) <= time (cells c))
  /\ cells (OnDoubles.run
              [ToggleRunning; Tick 1; Tick 1; Tick 1; ToggleRunning] mount)
     = {| time := 30; isRunning := false; isSelectingLabel := false;
          currentDisplayedLabel := None |}.
Proof.
  split; [|split; [|split]].
  - intros ops Hr Hsafe.
    destruct (consistent_running _ (reachable64_consistent ops) Hr)
      as (h & _ & Hiv & _).
    exists (S h). split; [exact Hiv|].
    rewrite (tick64_safe _ _ Hsafe).
    rewrite cells_tick, Hiv, lookup_singleton_eq, Hr. reflexivity.
  - intros c h [d Hd] Hsafe.
    rewrite (tick64_safe _ _ Hsafe), cells_tick, Hd. reflexivity.
  - exact time64_not_tick.
  - vm_compute. reflexivity.
Qed.

Lemma tick_drives_time_witness :
  (isRunning (cells (OnDoubles.run [ToggleRunning; Tick 1] mount)) = true
   /\ time (cells (OnDoubles.run [ToggleRunning; Tick 1] mount)) + 10
      <= Binary64.MAX_SAFE_INTEGER
   /\ exists h : nat,
        intervals (OnDoubles.run [ToggleRunning; Tick 1] mount)
        = {[ h := 10 ]})
  /\ (is_Some (intervals (toggleRunning mount) !! 1%nat)
      /\ time (cells (toggleRunning mount)) + 10
         <= Binary64.MAX_SAFE_INTEGER
      /\ time (cells (OnDoubles.tick 1 (toggleRunning mount)))
         = time (cells (toggleRunning mount)) + 10)
  /\ (isTick Reset = false
      /\ time (cells (OnDoubles.perform Reset (toggleRunning mount)))
         <= time (cells (toggleRunning mount))).
Proof.
  assert (Hrun : isRunning
                   (cells (OnDoubles.run [ToggleRunning; Tick 1] mount))
                 = true) by (vm_compute; reflexivity).
  assert (Hsafe : time (cells (OnDoubles.run [ToggleRunning; Tick 1] mount))
                  + 10 <= Binary64.MAX_SAFE_INTEGER)
    by (vm_compute; discriminate).
  assert (Hlive : is_Some (intervals (toggleRunning mount) !! 1%nat))
    by (exists 10; vm_compute; reflexivity).
  assert (Hsafe0 : time (cells (toggleRunning mount)) + 10
                   <= Binary64.MAX_SAFE_INTEGER)
    by (vm_compute; discriminate).
  split; [|split].
  - split; [exact Hrun|]. split; [exact Hsafe|].
    destruct (proj1 tick_drives_time [ToggleRunning; Tick 1] Hrun Hsafe)
      as (h & Hiv & _).
    exists h. exact Hiv.
  - split; [exact Hlive|]. split; [exact Hsafe0|].
    exact (proj1 (proj2 tick_drives_time) _ _ Hlive Hsafe0).
  - split; [reflexivity|].
    apply (proj1 (proj2 (proj2 tick_drives_time))). reflexivity.
Defined.

(** C7, beyond the safe integers.  In [lateClock] the clock runs, its
    interval is live, and the tick takes 18014398509481980 to
    18014398509481992: the sum 18014398509481990 is not a double and
    rounds to the even neighbour, so the tick adds 12, not 10. *)
Lemma tick_adds_twelve :
  ~ (forall (c : Stopwatch) (h : nat),
       isRunning (cells c) = true ->
       is_Some (intervals c !! h) ->
       time (cells (OnDoubles.tick h c)) = time (cells c) + 10).
Proof.
  intros H.
  assert (Hlive : is_Some (intervals lateClock !! 1%nat))
    by (exists 10; vm_compute; reflexivity).
  specialize (H lateClock 1%nat eq_refl Hlive).
  vm_compute in H. discriminate H.
Qed.

(** C8.  In every reachable state at most one interval is live, and one
    is live exactly while the clock runs.  reset clears it, already in its
    handler, and stopping clears it by the time the update is committed,
    so that no interval is left to fire afterwards: a tick after a reset
    or a stop changes nothing.  Starting registers one interval of 10 ms
    under a fresh handle, after the cleanup has run, so that there are
    never two; and unmounting clears whatever is live. *)
Theorem interval_discipline (ops : list operation) :
  (size (intervals (run ops mount)) <= 1)%nat
  /\ (isRunning (cells (run ops mount)) = true
      <-> intervals (run ops mount) <> ∅)
  /\ intervals (handleReset (run ops mount)) = ∅
  /\ intervals (reset (run ops mount)) = ∅
  /\ (forall h : nat, tick h (reset (run ops mount)) = reset (run ops mount))
  /\ (isRunning (cells (run ops mount)) = true ->
      intervals (toggleRunning (run ops mount)) = ∅
      /\ forall h : nat,
           tick h (toggleRunning (run ops mount))
           = toggleRunning (run ops mount))
  /\ (isRunning (cells (run ops mount)) = false ->
      intervals (toggleRunning (run ops mount))
      = {[ nextHandle (run ops mount) := 10 ]}
      /\ intervals (run ops mount) !! nextHandle (run ops mount) = None)
  /\ intervals (effectCleanup (handleStartStop (run ops mount))) = ∅
  /\ intervals (unmount (run ops mount)) = ∅.
Proof.
  pose proof (reachable_consistent ops) as Hc.
  set (c := run ops mount) in *.
  destruct (reset_clears c Hc) as (Hreset & _ & _).
  destruct (handleReset_clears c Hc) as (Hhandler & _ & _).
  split; [|split; [|split; [|split; [|split; [|split; [|split; [|split]]]]]]].
  - destruct (isRunning (cells c)) eqn:Hr.
    + destruct (consistent_running c Hc Hr) as (h & _ & -> & _).
      now rewrite map_size_singleton.
    + rewrite (stopped_clear c Hc Hr), map_size_empty. lia.
  - split.
    + intros Hr E.
      destruct (consistent_running c Hc Hr) as (h & _ & Hiv & _).
      rewrite Hiv in E.
      apply (f_equal (fun m : gmap nat N => m !! S h)) in E.
      rewrite lookup_singleton_eq, lookup_empty in E. discriminate E.
    + intros Hne. destruct (isRunning (cells c)) eqn:Hr; [reflexivity|].
      destruct Hne. exact (stopped_clear c Hc Hr).
  - exact Hhandler.
  - exact Hreset.
  - intros h. now apply tick_cleared.
  - intros Hr. destruct (toggleRunning_stops c Hc Hr) as (Hiv & _ & _).
    split; [exact Hiv|]. intros h. now apply tick_cleared.
  - intros Hr. destruct (toggleRunning_starts c Hc Hr) as (Hiv & _ & _).
    split; [exact Hiv|]. rewrite (stopped_clear c Hc Hr). apply lookup_empty.
  - now apply cleanup_after_handleStartStop.
  - now apply unmount_clears.
Qed.

Lemma interval_discipline_witness :
  isRunning (cells (run [ToggleRunning; Tick 1] mount)) = true
  /\ intervals (toggleRunning (run [ToggleRunning; Tick 1] mount)) = ∅
  /\ isRunning (cells (run [] mount)) = false
  /\ intervals (toggleRunning (run [] mount))
     = {[ nextHandle (run [] mount) := 10 ]}.
Proof.
  split; [vm_compute; reflexivity|]. split; [|split; [reflexivity|]].
  - apply (proj1 (proj2 (proj2 (proj2 (proj2 (proj2
             (interval_discipline [ToggleRunning; Tick 1]))))))).
    vm_compute; reflexivity.
  - apply (proj1 (proj2 (proj2 (proj2 (proj2 (proj2 (proj2
             (interval_discipline [])))))))).
    reflexivity.
Defined.

(** C9.  reset is idempotent: resetting twice gives the very state that
    resetting once gives, and its four cells are the idle ones. *)
Theorem reset_idempotent (c : Stopwatch) :
  reset (reset c) = reset c
  /\ cells (reset c)
     = {| time := 0; isRunning := false; isSelectingLabel := false;
          currentDisplayedLabel := None |}.
Proof.
  split; [|apply cells_reset].
  rewrite (reset_shape (reset c)), (reset_shape c). simpl.
  f_equal.
  change (intervals
            (clearCurrent
               {| cells := Idle; intervalRef := intervalRef c;
                  intervals := intervals (clearCurrent c);
                  nextHandle := nextHandle c |})
          = intervals (clearCurrent c)).
  destruct c as [s [[|h]|] iv nh]; unfold_component; map_tidy; reflexivity.
Qed.

(** C10.  The displayed label is left alone by toggleRunning in either
    direction, by requestLabelSelection and by every tick; an operation
    that changes it is a reset or a selectLabel made while running.  A
    label chosen while running is still shown after the clock is stopped
    and is gone after reset. *)
Theorem displayedLabel_frame :
  (forall c : Stopwatch,
     currentDisplayedLabel (cells (toggleRunning c))
     = currentDisplayedLabel (cells c))
  /\ (forall c : Stopwatch,
        currentDisplayedLabel (cells (requestLabelSelection c))
        = currentDisplayedLabel (cells c))
  /\ (forall (h : nat) (c : Stopwatch),
        currentDisplayedLabel (cells (tick h c))
        = currentDisplayedLabel (cells c))
  /\ (forall (o : operation) (c : Stopwatch),
        currentDisplayedLabel (cells (perform o c))
        <> currentDisplayedLabel (cells c) ->
        o = Reset
        \/ exists label, o = SelectLabel label /\ isRunning (cells c) = true)
  /\ currentDisplayedLabel
       (cells (run [ToggleRunning; SelectLabel "Intervallo"; ToggleRunning]
                   mount))
     = Some "Intervallo"%string
  /\ currentDisplayedLabel
       (cells (run [ToggleRunning; SelectLabel "Intervallo"; ToggleRunning;
                    Reset] mount))
     = None.
Proof.
  assert (Htoggle : forall c, currentDisplayedLabel (cells (toggleRunning c))
                              = currentDisplayedLabel (cells c))
    by (intros c; now rewrite cells_toggleRunning).
  assert (Hrequest : forall c,
             currentDisplayedLabel (cells (requestLabelSelection c))
             = currentDisplayedLabel (cells c)).
  { intros c. rewrite cells_requestLabelSelection.
    now destruct (isRunning (cells c)). }
  assert (Htick : forall h c, currentDisplayedLabel (cells (tick h c))
                              = currentDisplayedLabel (cells c)).
  { intros h c. rewrite cells_tick. now destruct (intervals c !! h). }
  repeat (split; [assumption|]). split; [|split; vm_compute; reflexivity].
  intros [| | |label|h] c Hne; simpl in Hne.
  - now rewrite Htoggle in Hne.
  - now left.
  - now rewrite Hrequest in Hne.
  - right. exists label. split; [reflexivity|].
    destruct (isRunning (cells c)) eqn:Hr; [reflexivity|].
    now rewrite selectLabel_stopped in Hne.
  - now rewrite Htick in Hne.
Qed.

Lemma displayedLabel_frame_witness :
  currentDisplayedLabel
    (cells (perform (SelectLabel "Intervallo") (toggleRunning mount)))
  <> currentDisplayedLabel (cells (toggleRunning mount))
  /\ (SelectLabel "Intervallo" = Reset
      \/ exists label,
           SelectLabel "Intervallo" = SelectLabel label
           /\ isRunning (cells (toggleRunning mount)) = true).
Proof.
  assert (Hne : currentDisplayedLabel
                  (cells (perform (SelectLabel "Intervallo")
                                  (toggleRunning mount)))
                <> currentDisplayedLabel (cells (toggleRunning mount)))
    by (vm_compute; discriminate).
  split; [exact Hne|].
  exact (proj1 (proj2 (proj2 (proj2 displayedLabel_frame))) _ _ Hne).
Defined.

(** ** Sample runs *)

Example formatTime_hundred_minutes : formatTime 6000000 = "100:00.00"%string.
Proof. vm_compute. reflexivity. Qed.

Example formatTime_last_centisecond : formatTime 59999 = "00:59.99"%string.
Proof. vm_compute. reflexivity. Qed.

Example restart_takes_fresh_handle :
  intervalRef (run [ToggleRunning; ToggleRunning; ToggleRunning] mount)
  = Some 2%nat.
Proof. vm_compute. reflexivity. Qed.

Example formatTime_exponent_form :
  OnDoubles.formatTime (Binary64.round53 (6 * 10 ^ 25)) = "1e+21:10.68"%string.
Proof. vm_compute. reflexivity. Qed.

Example toString_shortest_digits :
  Binary64.toString (2 ^ 60) = "1152921504606847000"%string.
Proof. vm_compute. reflexivity. Qed.

Example tick_stalls :
  time (cells (OnDoubles.tick 1
    {| cells := {| time := 2 ^ 57; isRunning := true;
                   isSelectingLabel := false; currentDisplayedLabel := None |};
       intervalRef := Some 1%nat; intervals := {[ 1%nat := 10 ]};
       nextHandle := 2 |}))
  = 2 ^ 57.
Proof. vm_compute. reflexivity. Qed.

Example stale_handle_does_not_tick :
  cells (run [ToggleRunning; Tick 1; ToggleRunning; Tick 1; Reset; Tick 1]
             mount)
  = Idle.
Proof. vm_compute. reflexivity. Qed.

(** * Further properties of the stopwatch *)


(** X1.  On doubles: while the clock runs and the elapsed time stays
    within [Number.MAX_SAFE_INTEGER], [n] firings of its interval add
    exactly [10 * n] milliseconds and change nothing else. *)
Theorem ticks_accumulate (ops : list operation) (n : nat) :
  isRunning (cells (OnDoubles.run ops mount)) = true ->
  time (cells (OnDoubles.run ops mount)) + 10 * N.of_nat n
  <= Binary64.MAX_SAFE_INTEGER ->
  exists h : nat,
    intervalRef (OnDoubles.run ops mount) = Some h
    /\ cells (OnDoubles.run (ops ++ repeat (Tick h) n) mount)
       = {| time := time (cells (OnDoubles.run ops mount)) + 10 * N.of_nat n;
            isRunning := true;
            isSelectingLabel :=
              isSelectingLabel (cells (OnDoubles.run ops mount));
            currentDisplayedLabel :=
              currentDisplayedLabel (cells (OnDoubles.run ops mount)) |}.
Proof.
  intros Hr Hsafe.
  destruct (consistent_running _ (reachable64_consistent ops) Hr)
    as (h & Href & Hiv & _).
  exists (S h). split; [exact Href|].
  rewrite run64_app, run64_safe by (now rewrite ticks_repeat).
  rewrite ticks_on_live_interval, Hr; [reflexivity|].
  rewrite Hiv, lookup_singleton_eq. eauto.
Qed.

Lemma ticks_accumulate_witness :
  isRunning (cells (OnDoubles.run [ToggleRunning; Tick 1] mount)) = true
  /\ time (cells (OnDoubles.run [ToggleRunning; Tick 1] mount))
     + 10 * N.of_nat 600 <= Binary64.MAX_SAFE_INTEGER
  /\ exists h : nat,
       time (cells (OnDoubles.run
                      ([ToggleRunning; Tick 1] ++ repeat (Tick h) 600) mount))
       = 6010.
Proof.
  assert (Hr : isRunning (cells (OnDoubles.run [ToggleRunning; Tick 1] mount))
               = true) by (vm_compute; reflexivity).
  assert (Hsafe : time (cells (OnDoubles.run [ToggleRunning; Tick 1] mount))
                  + 10 * N.of_nat 600 <= Binary64.MAX_SAFE_INTEGER)
    by (vm_compute; discriminate).
  split; [exact Hr|]. split; [exact Hsafe|].
  destruct (ticks_accumulate [ToggleRunning; Tick 1] 600 Hr Hsafe)
    as (h & _ & E).
  exists h. rewrite E. vm_compute. reflexivity.
Defined.

(** X2.  On doubles: as long as ten times the number of ticks performed
    stays within [Number.MAX_SAFE_INTEGER], the state reached is the one
    exact arithmetic reaches, and its elapsed time is a whole number of
    ticks: a multiple of 10, at most ten times the number of ticks. *)
Theorem time_is_whole_ticks (ops : list operation) :
  10 * N.of_nat (length (List.filter isTick ops))
  <= Binary64.MAX_SAFE_INTEGER ->
  OnDoubles.run ops mount = run ops mount
  /\ time (cells (OnDoubles.run ops mount)) mod 10 = 0
  /\ time (cells (OnDoubles.run ops mount))
     <= 10 * N.of_nat (length (List.filter isTick ops)).
Proof.
  intros Hsafe.
  assert (E : OnDoubles.run ops mount = run ops mount)
    by (apply run64_safe; exact Hsafe).
  rewrite E. split; [reflexivity|].
  exact (run_time_bound ops mount eq_refl).
Qed.

Lemma time_is_whole_ticks_witness :
  10 * N.of_nat (length (List.filter isTick
                           [ToggleRunning; Tick 1; Tick 7; Tick 1]))
  <= Binary64.MAX_SAFE_INTEGER
  /\ time (cells (OnDoubles.run [ToggleRunning; Tick 1; Tick 7; Tick 1] mount))
     <= 30.
Proof.
  assert (Hsafe : 10 * N.of_nat (length (List.filter isTick
                           [ToggleRunning; Tick 1; Tick 7; Tick 1]))
                  <= Binary64.MAX_SAFE_INTEGER) by (vm_compute; discriminate).
  split; [exact Hsafe|].
  exact (proj2 (proj2 (time_is_whole_ticks _ Hsafe))).
Defined.

(** X3.  Two elapsed times are displayed alike exactly when they agree up
    to the hundredth of a second. *)
Theorem formatTime_injective (a b : N) :
  formatTime a = formatTime b <-> a / 10 = b / 10.
Proof.
  split.
  - intros E. apply formatTime_fields in E. destruct E as (Em & Es & Ec).
    rewrite !minutes_of_centis in Em. rewrite !seconds_of_centis in Es.
    rewrite !hundredths_of_centis in Ec.
    rewrite (centis_of_fields (a / 10)), (centis_of_fields (b / 10)).
    now rewrite Em, Es, Ec.
  - intros E. unfold formatTime. cbv zeta.
    rewrite !minutes_of_centis, !seconds_of_centis, !hundredths_of_centis.
    now rewrite E.
Qed.

(** X4.  On doubles: the time string determines the elapsed time.  Two
    states reached with at most [Number.MAX_SAFE_INTEGER / 10] ticks each
    whose times [formatTime] prints alike have the same [time]. *)
Theorem display_determines_time (ops1 ops2 : list operation) :
  10 * N.of_nat (length (List.filter isTick ops1))
  <= Binary64.MAX_SAFE_INTEGER ->
  10 * N.of_nat (length (List.filter isTick ops2))
  <= Binary64.MAX_SAFE_INTEGER ->
  OnDoubles.formatTime (time (cells (OnDoubles.run ops1 mount)))
  = OnDoubles.formatTime (time (cells (OnDoubles.run ops2 mount))) ->
  time (cells (OnDoubles.run ops1 mount))
  = time (cells (OnDoubles.run ops2 mount)).
Proof.
  intros Hs1 Hs2.
  rewrite !run64_safe by assumption.
  destruct (run_time_bound ops1 mount eq_refl) as (H1 & Hb1).
  destruct (run_time_bound ops2 mount eq_refl) as (H2 & Hb2).
  change (time (cells mount)) with 0 in Hb1, Hb2.
  rewrite !formatTime64_safe by lia.
  intros E. apply formatTime_centis in E.
  rewrite (N.div_mod (time (cells (run ops1 mount))) 10) by lia.
  rewrite (N.div_mod (time (cells (run ops2 mount))) 10) by lia.
  now rewrite E, H1, H2.
Qed.

Lemma display_determines_time_witness :
  OnDoubles.formatTime
    (time (cells (OnDoubles.run [ToggleRunning; Tick 1; Reset; ToggleRunning]
                                mount)))
  = OnDoubles.formatTime (time (cells (OnDoubles.run [] mount)))
  /\ time (cells (OnDoubles.run [ToggleRunning; Tick 1; Reset; ToggleRunning]
                                mount))
     = time (cells (OnDoubles.run [] mount)).
Proof.
  assert (E : OnDoubles.formatTime
                (time (cells (OnDoubles.run
                                [ToggleRunning; Tick 1; Reset; ToggleRunning]
                                mount)))
              = OnDoubles.formatTime (time (cells (OnDoubles.run [] mount))))
    by (vm_compute; reflexivity).
  split; [exact E|].
  apply (display_determines_time
           [ToggleRunning; Tick 1; Reset; ToggleRunning] []);
    [vm_compute; discriminate | vm_compute; discriminate | exact E].
Defined.

(** X5.  The display is eight characters wide exactly below one hundred
    minutes; from then on it is wider. *)
Theorem formatTime_width (ms : N) :
  (String.length (formatTime ms) = 8%nat <-> ms < 6000000)
  /\ (6000000 <= ms -> (9 <= String.length (formatTime ms))%nat).
Proof.
  rewrite formatTime_length.
  destruct (N.lt_ge_cases ms 6000000) as [Hlt|Hge].
  - assert (Hm : ms / 60000 < 100)
      by (apply N.Div0.div_lt_upper_bound; lia).
    rewrite (pad_length_two _ Hm). split; [split; [auto | reflexivity] | lia].
  - assert (Hm : 100 <= ms / 60000)
      by (apply N.div_le_lower_bound; lia).
    pose proof (pad_length_three _ Hm). split; [split|]; lia.
Qed.

Lemma formatTime_width_witness :
  6000000 <= 6000000
  /\ (9 <= String.length (formatTime 6000000))%nat
  /\ (59999 < 6000000 /\ String.length (formatTime 59999) = 8%nat).
Proof.
  split; [vm_compute; discriminate|]. split.
  - apply (proj2 (formatTime_width 6000000)). vm_compute; discriminate.
  - split; [reflexivity|].
    apply (proj1 (formatTime_width 59999)). reflexivity.
Defined.

(** X6.  Pressing start/stop twice brings a reachable state back to the
    same elapsed time, label and running flag, with the label selection
    closed.  If the clock was running, it now runs on a new interval
    under a fresh handle, and the one held before is gone; if it was
    stopped, no interval is left behind. *)
Theorem pause_resume (ops : list operation) :
  cells (toggleRunning (toggleRunning (run ops mount)))
  = {| time := time (cells (run ops mount));
       isRunning := isRunning (cells (run ops mount));
       isSelectingLabel := false;
       currentDisplayedLabel := currentDisplayedLabel (cells (run ops mount)) |}
  /\ (isRunning (cells (run ops mount)) = true ->
      intervals (toggleRunning (toggleRunning (run ops mount)))
      = {[ nextHandle (run ops mount) := 10 ]}
      /\ intervalRef (run ops mount) <> Some (nextHandle (run ops mount)))
  /\ (isRunning (cells (run ops mount)) = false ->
      intervals (toggleRunning (toggleRunning (run ops mount))) = ∅).
Proof.
  pose proof (reachable_consistent ops) as Hc.
  set (c := run ops mount) in *.
  pose proof (toggleRunning_consistent c Hc) as Hc'.
  pose proof (cells_toggleRunning c) as E1.
  pose proof (cells_toggleRunning (toggleRunning c)) as E2.
  rewrite E1 in E2. simpl in E2.
  split; [|split].
  - rewrite E2, Bool.negb_involutive.
    destruct (isRunning (cells c)) eqn:Hr; [reflexivity|].
    destruct (isSelectingLabel (cells c)) eqn:Hs; [|reflexivity].
    pose proof (selecting_running c Hc Hs). congruence.
  - intros Hr. destruct (toggleRunning_stops c Hc Hr) as (_ & Href & Hnh).
    assert (Hr' : isRunning (cells (toggleRunning c)) = false)
      by (now rewrite E1, Hr).
    destruct (toggleRunning_starts _ Hc' Hr') as (Hiv & _ & _).
    rewrite Hiv, Hnh. split; [reflexivity|].
    intros E. pose proof (ref_known c Hc _ E). lia.
  - intros Hr.
    assert (Hr' : isRunning (cells (toggleRunning c)) = true)
      by (now rewrite E1, Hr).
    now destruct (toggleRunning_stops _ Hc' Hr') as (Hiv & _ & _).
Qed.

Lemma pause_resume_witness :
  isRunning (cells (run [ToggleRunning; Tick 1] mount)) = true
  /\ intervals (toggleRunning (toggleRunning
                  (run [ToggleRunning; Tick 1] mount)))
     = {[ 2%nat := 10 ]}
  /\ isRunning (cells (run [] mount)) = false
  /\ intervals (toggleRunning (toggleRunning (run [] mount))) = ∅.
Proof.
  assert (Hr : isRunning (cells (run [ToggleRunning; Tick 1] mount)) = true)
    by (vm_compute; reflexivity).
  split; [exact Hr|]. split; [|split; [reflexivity|]].
  - exact (proj1 (proj1 (proj2 (pause_resume [ToggleRunning; Tick 1])) Hr)).
  - exact (proj2 (proj2 (pause_resume [])) eq_refl).
Defined.

(** ** The rendered component *)

Section Rendered.

(** A gesture either does nothing or is one of the operations; a label
    it selects is one of those offered, and the clock runs. *)
Lemma labelButtons_render (s : TimerState) :
  labelButtons (render s)
  = if isSelectingLabel s && isRunning s then timePointLabels else [].
Proof. unfold render. cbn [labelButtons]. now rewrite List.map_id. Qed.

Lemma react_cases (g : gesture) (c : Stopwatch) :
  react g c = c
  \/ exists o : operation,
       react g c = perform o c
       /\ forall label, o = SelectLabel label ->
                        In label timePointLabels
                        /\ isRunning (cells c) = true.
Proof.
  destruct g as [| | |index|handle]; unfold react.
  - right. exists ToggleRunning. split; [reflexivity | discriminate].
  - destruct (resetDisabled (render (cells c))); [now left|].
    right. exists Reset. split; [reflexivity | discriminate].
  - destruct (selectDisabled (render (cells c))); [now left|].
    right. exists RequestLabelSelection. split; [reflexivity | discriminate].
  - destruct (labelButtons (render (cells c)) !! index) as [label|] eqn:E;
      [|now left].
    right. exists (SelectLabel label). split; [reflexivity|].
    intros l [= <-]. rewrite labelButtons_render in E.
    destruct (isSelectingLabel (cells c)), (isRunning (cells c));
      cbn [andb] in E; rewrite ?lookup_nil in E; try discriminate E.
    split; [|reflexivity].
    apply list_elem_of_In. eapply list_elem_of_lookup_2. exact E.
  - right. exists (Tick handle). split; [reflexivity | discriminate].
Qed.

Lemma react_keeps (g : gesture) (c : Stopwatch) :
  consistent c /\ labelOffered c ->
  consistent (react g c) /\ labelOffered (react g c).
Proof.
  intros (Hc & Hl). destruct (react_cases g c) as [-> | (o & -> & Ho)];
    [now split|].
  split; [now apply perform_consistent|].
  unfold labelOffered. destruct o as [| | |label|h]; simpl.
  - now rewrite cells_toggleRunning.
  - rewrite cells_reset. discriminate.
  - rewrite cells_requestLabelSelection.
    now destruct (isRunning (cells c)).
  - destruct (Ho label eq_refl) as (Hin & Hr).
    rewrite cells_selectLabel, Hr. simpl. now intros l [= <-].
  - rewrite cells_tick. now destruct (intervals c !! h).
Qed.

Lemma session_keeps (gs : list gesture) :
  forall c : Stopwatch,
    consistent c /\ labelOffered c ->
    consistent (session gs c) /\ labelOffered (session gs c).
Proof.
  induction gs as [|g gs IH]; intros c H; [exact H|].
  apply IH, react_keeps, H.
Qed.

Lemma session_mount (gs : list gesture) :
  consistent (session gs mount) /\ labelOffered (session gs mount).
Proof.
  apply session_keeps. split; [apply mount_consistent | discriminate].
Qed.

Lemma offered_nonempty (label : string) :
  In label timePointLabels -> truthyString (Some label) = true.
Proof.
  simpl. intros H.
  repeat (destruct H as [<-|H]; [reflexivity|]). destruct H.
Qed.

End Rendered.

(** X7.  However the buttons are pressed and whenever intervals fire, the
    label held by the component is one of [timePointLabels]; the banner
    shows exactly that label; and the selection area lists the labels, in
    order, exactly while [isSelectingLabel] holds. *)
Theorem session_shows_offered_label (gs : list gesture) :
  (forall label,
     currentDisplayedLabel (cells (session gs mount)) = Some label ->
     In label timePointLabels)
  /\ labelBanner (render (cells (session gs mount)))
     = currentDisplayedLabel (cells (session gs mount))
  /\ labelButtons (render (cells (session gs mount)))
     = if isSelectingLabel (cells (session gs mount))
       then timePointLabels else [].
Proof.
  destruct (session_mount gs) as (Hc & Hl).
  set (c := session gs mount) in *.
  split; [exact Hl|]. split.
  - unfold render. cbn [labelBanner].
    destruct (currentDisplayedLabel (cells c)) as [label|] eqn:E;
      [|reflexivity].
    now rewrite (offered_nonempty label (Hl label E)).
  - rewrite labelButtons_render.
    destruct (isSelectingLabel (cells c)) eqn:Hs; [|reflexivity].
    now rewrite (selecting_running c Hc Hs).
Qed.

Lemma session_shows_offered_label_witness :
  currentDisplayedLabel
    (cells (session [PressStartStop; PressSelectTime; PressLabel 5] mount))
  = Some "Intervallo"%string
  /\ In "Intervallo"%string timePointLabels.
Proof.
  assert (E : currentDisplayedLabel
                (cells (session [PressStartStop; PressSelectTime; PressLabel 5]
                                mount))
              = Some "Intervallo"%string) by (vm_compute; reflexivity).
  split; [exact E|].
  exact (proj1 (session_shows_offered_label
                  [PressStartStop; PressSelectTime; PressLabel 5]) _ E).
Defined.

(** X8.  In any state the controls do what they show.  Pressing the
    enabled select button opens the area with all the labels; pressing a
    label button that is shown displays that very label, closes the area
    and leaves time and the running clock alone; a press on a label
    button that is not there, on the disabled select button or on the
    disabled reset button changes nothing. *)
Theorem buttons_act_as_shown (c : Stopwatch) :
  (selectDisabled (render (cells c)) = false ->
   labelButtons (render (cells (react PressSelectTime c))) = timePointLabels)
  /\ (forall (index : nat) (label : string),
        labelButtons (render (cells c)) !! index = Some label ->
        cells (react (PressLabel index) c)
        = {| time := time (cells c); isRunning := true;
             isSelectingLabel := false;
             currentDisplayedLabel := Some label |}
        /\ labelButtons (render (cells (react (PressLabel index) c))) = [])
  /\ (forall index : nat,
        labelButtons (render (cells c)) !! index = None ->
        react (PressLabel index) c = c)
  /\ (selectDisabled (render (cells c)) = true ->
      react PressSelectTime c = c)
  /\ (resetDisabled (render (cells c)) = true -> react PressReset c = c).
Proof.
  split; [|split; [|split; [|split]]].
  - intros E. unfold react. rewrite E.
    rewrite labelButtons_render, cells_requestLabelSelection.
    cbn [render selectDisabled] in E.
    destruct (isRunning (cells c)); [|discriminate E]. reflexivity.
  - intros index label E. unfold react. rewrite E.
    rewrite labelButtons_render in E |- *.
    rewrite cells_selectLabel.
    destruct (isSelectingLabel (cells c)), (isRunning (cells c));
      cbn [andb] in E; rewrite ?lookup_nil in E; try discriminate E.
    split; reflexivity.
  - intros index E. unfold react. now rewrite E.
  - intros E. unfold react. now rewrite E.
  - intros E. unfold react. now rewrite E.
Qed.

Lemma buttons_act_as_shown_witness :
  (selectDisabled (render (cells (toggleRunning mount))) = false
   /\ labelButtons
        (render (cells (react PressSelectTime (toggleRunning mount))))
      = timePointLabels)
  /\ (labelButtons
        (render (cells (requestLabelSelection (toggleRunning mount))))
      !! 1%nat = Some "2° Tempo"%string
      /\ currentDisplayedLabel
           (cells (react (PressLabel 1)
                         (requestLabelSelection (toggleRunning mount))))
         = Some "2° Tempo"%string)
  /\ (labelButtons (render (cells mount)) !! 0%nat = None
      /\ react (PressLabel 0) mount = mount)
  /\ (selectDisabled (render (cells mount)) = true
      /\ react PressSelectTime mount = mount)
  /\ (resetDisabled (render (cells (toggleRunning mount))) = true
      /\ react PressReset (toggleRunning mount) = toggleRunning mount).
Proof.
  split; [|split; [|split; [|split]]]; (split; [vm_compute; reflexivity|]).
  - apply (proj1 (buttons_act_as_shown (toggleRunning mount))).
    vm_compute; reflexivity.
  - assert (E : labelButtons
                  (render (cells (requestLabelSelection (toggleRunning mount))))
                !! 1%nat = Some "2° Tempo"%string) by (vm_compute; reflexivity).
    destruct (proj1 (proj2 (buttons_act_as_shown
                              (requestLabelSelection (toggleRunning mount))))
                    1%nat _ E) as (Hcells & _).
    now rewrite Hcells.
  - apply (proj1 (proj2 (proj2 (buttons_act_as_shown mount)))).
    vm_compute; reflexivity.
  - apply (proj1 (proj2 (proj2 (proj2 (buttons_act_as_shown mount))))).
    vm_compute; reflexivity.
  - apply (proj2 (proj2 (proj2 (proj2
             (buttons_act_as_shown (toggleRunning mount)))))).
    vm_compute; reflexivity.
Defined.

(** * The login page and the route guard *)

Section Login.

Import LoginPage.

Lemma credentialsMatch_cases (env : Env) (values : LoginFormValues) :
  credentialsMatch env values \/ ~ credentialsMatch env values.
Proof.
  unfold credentialsMatch.
  destruct (decide (VITE_APP_SINGLE_USER_ID env = Some (id values)));
    [|right; tauto].
  destruct (decide (id values = EmptyString)); [right; tauto|].
  destruct (decide (VITE_APP_SINGLE_PASSWORD env = Some (password values)));
    [|right; tauto].
  destruct (decide (password values = EmptyString)); [right; tauto|].
  left; tauto.
Qed.

Lemma credentialsMatch_schema (env : Env) (values : LoginFormValues) :
  credentialsMatch env values -> loginFormSchema values = true.
Proof.
  intros (_ & Hi & _ & Hp). unfold loginFormSchema.
  destruct (id values); [contradiction|].
  destruct (password values); [contradiction|]. reflexivity.
Qed.

Lemma onSubmit_match (env : Env) (values : LoginFormValues) (b : Browser) :
  credentialsMatch env values ->
  onSubmit env values b
  = {| localStorage :=
         <["isLoggedIn"%string := "true"%string]> (localStorage b);
       location := "/";
       toasts := toasts b ++ [showSuccess "Accesso effettuato con successo!"];
       console := console b;
       form := form b |}.
Proof.
  intros (Ei & Hi & Ep & Hp). unfold onSubmit. rewrite Ei, Ep.
  destruct (id values) as [|ci i]; [contradiction|].
  destruct (password values) as [|cp p]; [contradiction|].
  cbn [truthyString negb orb]. now rewrite !bool_decide_eq_true_2.
Qed.

Lemma onSubmit_no_match (env : Env) (values : LoginFormValues) (b : Browser) :
  ~ credentialsMatch env values ->
  localStorage (onSubmit env values b) = localStorage b
  /\ location (onSubmit env values b) = location b
  /\ exists message,
       toasts (onSubmit env values b) = toasts b ++ [showError message].
Proof.
  intros Hno. unfold onSubmit.
  destruct (negb (truthyString (VITE_APP_SINGLE_USER_ID env))
            || negb (truthyString (VITE_APP_SINGLE_PASSWORD env))) eqn:Hcfg;
    [cbn; eauto|].
  destruct (bool_decide (Some (id values) = VITE_APP_SINGLE_USER_ID env)
            && bool_decide
                 (Some (password values) = VITE_APP_SINGLE_PASSWORD env))
    eqn:Heq; [|cbn; eauto].
  destruct Hno. apply andb_prop in Heq. destruct Heq as (Hi & Hp).
  apply bool_decide_eq_true in Hi, Hp. unfold credentialsMatch.
  rewrite <- Hi, <- Hp in Hcfg |- *.
  destruct (id values), (password values); try discriminate Hcfg.
  repeat split; congruence.
Qed.

Lemma ProtectedRoute_storage (b1 b2 : Browser) :
  localStorage b1 = localStorage b2 -> ProtectedRoute b1 = ProtectedRoute b2.
Proof. unfold ProtectedRoute. now intros ->. Qed.

Lemma attempt_gate (env : Env) (values : LoginFormValues) (b : Browser) :
  ProtectedRoute (attempt env values b) = Outlet
  <-> ProtectedRoute b = Outlet \/ credentialsMatch env values.
Proof.
  unfold attempt, handleSubmit. cbn [fill form].
  destruct (credentialsMatch_cases env values) as [Hm | Hno].
  - rewrite (credentialsMatch_schema env values Hm), onSubmit_match by exact Hm.
    unfold ProtectedRoute at 1. cbn [localStorage].
    rewrite lookup_insert_eq, bool_decide_eq_true_2 by reflexivity.
    tauto.
  - assert (E : ProtectedRoute
                  (if loginFormSchema values
                   then onSubmit env values (fill values b)
                   else fill values b)
                = ProtectedRoute b).
    { apply ProtectedRoute_storage.
      destruct (loginFormSchema values); [|reflexivity].
      now destruct (onSubmit_no_match env values (fill values b) Hno)
        as (-> & _). }
    rewrite E. tauto.
Qed.

End Login.

(** X9.  [onSubmit] lets the user in exactly on the configured
    credentials.  If both variables are set and not empty and the
    submitted ID and password equal them, [isLoggedIn] is stored as
    "true", the page moves to "/" and the route guard renders its
    outlet; such values always pass the form's schema.  In every other
    case (a wrong value, or a variable that is unset or empty) storage
    and location are untouched, the guard's verdict is what it was, and
    an error toast is shown. *)
Theorem onSubmit_grants_exactly (env : LoginPage.Env)
    (values : LoginPage.LoginFormValues) (b : LoginPage.Browser) :
  (credentialsMatch env values ->
   LoginPage.localStorage (LoginPage.onSubmit env values b)
   = <["isLoggedIn"%string := "true"%string]> (LoginPage.localStorage b)
   /\ LoginPage.location (LoginPage.onSubmit env values b) = "/"%string
   /\ ProtectedRoute (LoginPage.onSubmit env values b) = Outlet
   /\ LoginPage.loginFormSchema values = true)
  /\ (~ credentialsMatch env values ->
      LoginPage.localStorage (LoginPage.onSubmit env values b)
      = LoginPage.localStorage b
      /\ LoginPage.location (LoginPage.onSubmit env values b)
         = LoginPage.location b
      /\ ProtectedRoute (LoginPage.onSubmit env values b) = ProtectedRoute b
      /\ exists message,
           LoginPage.toasts (LoginPage.onSubmit env values b)
           = LoginPage.toasts b ++ [LoginPage.showError message]).
Proof.
  split.
  - intros Hm. rewrite onSubmit_match by exact Hm.
    cbn [LoginPage.localStorage LoginPage.location].
    repeat split; [|now apply (credentialsMatch_schema env)].
    unfold ProtectedRoute. cbn [LoginPage.localStorage].
    now rewrite lookup_insert_eq, bool_decide_eq_true_2.
  - intros Hno.
    destruct (onSubmit_no_match env values b Hno) as (Hs & Hl & Ht).
    repeat split; auto using ProtectedRoute_storage.
Qed.

(** X10.  Starting from any browser state, after any run of login
    attempts the route guard renders its outlet exactly if it did
    before or one of the attempts carried the configured credentials:
    nothing else opens the gate, and no attempt closes it again. *)
Theorem gate_opens_on_match (env : LoginPage.Env)
    (tries : list LoginPage.LoginFormValues) (b : LoginPage.Browser) :
  ProtectedRoute (attempts env tries b) = Outlet
  <-> ProtectedRoute b = Outlet \/ Exists (credentialsMatch env) tries.
Proof.
  revert b. induction tries as [|values tries IH]; intros b.
  - simpl. rewrite Exists_nil. tauto.
  - change (attempts env (values :: tries) b)
      with (attempts env tries (LoginPage.attempt env values b)).
    rewrite IH, attempt_gate, Exists_cons. tauto.
Qed.

Lemma onSubmit_grants_exactly_witness :
  (credentialsMatch
     {| LoginPage.VITE_APP_SINGLE_USER_ID := Some "mister"%string;
        LoginPage.VITE_APP_SINGLE_PASSWORD := Some "leon14"%string |}
     {| LoginPage.id := "mister"; LoginPage.password := "leon14" |}
   /\ ProtectedRoute
        (LoginPage.onSubmit
           {| LoginPage.VITE_APP_SINGLE_USER_ID := Some "mister"%string;
              LoginPage.VITE_APP_SINGLE_PASSWORD := Some "leon14"%string |}
           {| LoginPage.id := "mister"; LoginPage.password := "leon14" |}
           freshBrowser)
      = Outlet)
  /\ (~ credentialsMatch
          {| LoginPage.VITE_APP_SINGLE_USER_ID := Some ""%string;
             LoginPage.VITE_APP_SINGLE_PASSWORD := None |}
          {| LoginPage.id := ""; LoginPage.password := "" |}
      /\ ProtectedRoute
           (LoginPage.onSubmit
              {| LoginPage.VITE_APP_SINGLE_USER_ID := Some ""%string;
                 LoginPage.VITE_APP_SINGLE_PASSWORD := None |}
              {| LoginPage.id := ""; LoginPage.password := "" |}
              freshBrowser)
         = Navigate "/login" true).
Proof.
  assert (Hgood : credentialsMatch
            {| LoginPage.VITE_APP_SINGLE_USER_ID := Some "mister"%string;
               LoginPage.VITE_APP_SINGLE_PASSWORD := Some "leon14"%string |}
            {| LoginPage.id := "mister"; LoginPage.password := "leon14" |})
    by (repeat split; discriminate).
  assert (Hbad : ~ credentialsMatch
            {| LoginPage.VITE_APP_SINGLE_USER_ID := Some ""%string;
               LoginPage.VITE_APP_SINGLE_PASSWORD := None |}
            {| LoginPage.id := ""; LoginPage.password := "" |})
    by (intros (_ & _ & E & _); discriminate E).
  split; (split; [assumption|]).
  - exact (proj1 (proj2 (proj2
             (proj1 (onSubmit_grants_exactly _ _ freshBrowser) Hgood)))).
  - rewrite (proj1 (proj2 (proj2
               (proj2 (onSubmit_grants_exactly _ _ freshBrowser) Hbad)))).
    reflexivity.
Defined.

Lemma gate_opens_on_match_witness :
  Exists
    (credentialsMatch
       {| LoginPage.VITE_APP_SINGLE_USER_ID := Some "mister"%string;
          LoginPage.VITE_APP_SINGLE_PASSWORD := Some "leon14"%string |})
    [ {| LoginPage.id := "mister"; LoginPage.password := "leon" |};
      {| LoginPage.id := "mister"; LoginPage.password := "leon14" |};
      {| LoginPage.id := "x"; LoginPage.password := "" |} ]
  /\ ProtectedRoute
       (attempts
          {| LoginPage.VITE_APP_SINGLE_USER_ID := Some "mister"%string;
             LoginPage.VITE_APP_SINGLE_PASSWORD := Some "leon14"%string |}
          [ {| LoginPage.id := "mister"; LoginPage.password := "leon" |};
            {| LoginPage.id := "mister"; LoginPage.password := "leon14" |};
            {| LoginPage.id := "x"; LoginPage.password := "" |} ]
          freshBrowser)
     = Outlet.
Proof.
  assert (H : Exists
    (credentialsMatch
       {| LoginPage.VITE_APP_SINGLE_USER_ID := Some "mister"%string;
          LoginPage.VITE_APP_SINGLE_PASSWORD := Some "leon14"%string |})
    [ {| LoginPage.id := "mister"; LoginPage.password := "leon" |};
      {| LoginPage.id := "mister"; LoginPage.password := "leon14" |};
      {| LoginPage.id := "x"; LoginPage.password := "" |} ]).
  { apply Exists_cons_tl, Exists_cons_hd. repeat split; discriminate. }
  split; [exact H|].
  apply (proj2 (gate_opens_on_match _ _ freshBrowser)). right. exact H.
Defined.

(** X11.  In every reachable state only the interval whose handle the
    ref holds can advance the clock, and only while it runs: firing any
    other handle, such as one left over from an earlier run, changes
    nothing.  The handle in the ref is positive, and every handle in use
    is below the next one [setInterval] will return. *)
Theorem only_current_handle_ticks (ops : list operation) :
  (forall h : nat,
     tick h (run ops mount) <> run ops mount ->
     isRunning (cells (run ops mount)) = true
     /\ intervalRef (run ops mount) = Some h)
  /\ (forall h : nat,
        intervalRef (run ops mount) = Some h ->
        (0 < h < nextHandle (run ops mount))%nat)
  /\ (forall h : nat,
        is_Some (intervals (run ops mount) !! h) ->
        (h < nextHandle (run ops mount))%nat).
Proof.
  pose proof (reachable_consistent ops) as Hc.
  set (c := run ops mount) in *.
  split; [|split].
  - intros h Hne. destruct (isRunning (cells c)) eqn:Hr.
    + destruct (consistent_running c Hc Hr) as (h0 & Href & Hiv & _).
      split; [reflexivity|]. destruct (decide (h = S h0)) as [->|Hh];
        [exact Href|].
      destruct Hne. unfold tick.
      now rewrite Hiv, lookup_singleton_ne by congruence.
    + destruct Hne. apply tick_cleared. exact (stopped_clear c Hc Hr).
  - exact (ref_known c Hc).
  - intros h [d Hd]. destruct (isRunning (cells c)) eqn:Hr.
    + destruct (consistent_running c Hc Hr) as (h0 & Href & Hiv & Hlt).
      rewrite Hiv in Hd. apply lookup_singleton_Some in Hd.
      destruct Hd as (<- & _). exact Hlt.
    + rewrite (stopped_clear c Hc Hr), lookup_empty in Hd. discriminate Hd.
Qed.

Lemma only_current_handle_ticks_witness :
  tick 2 (run [ToggleRunning; ToggleRunning; ToggleRunning] mount)
  <> run [ToggleRunning; ToggleRunning; ToggleRunning] mount
  /\ intervalRef (run [ToggleRunning; ToggleRunning; ToggleRunning] mount)
     = Some 2%nat
  /\ (2 < nextHandle (run [ToggleRunning; ToggleRunning; ToggleRunning] mount))%nat.
Proof.
  assert (Hne : tick 2 (run [ToggleRunning; ToggleRunning; ToggleRunning] mount)
                <> run [ToggleRunning; ToggleRunning; ToggleRunning] mount).
  { intros E. apply (f_equal (fun c => time (cells c))) in E.
    vm_compute in E. discriminate E. }
  destruct (proj1 (only_current_handle_ticks
                     [ToggleRunning; ToggleRunning; ToggleRunning]) 2%nat Hne)
    as (_ & Href).
  split; [exact Hne|]. split; [exact Href|].
  apply (proj1 (proj2 (only_current_handle_ticks
                         [ToggleRunning; ToggleRunning; ToggleRunning]))
               2%nat Href).
Defined.

(** X12.  In every reachable state the reset button is disabled exactly
    while the clock runs and the display still reads 00:00.00. *)
Theorem reset_disabled_at_zero (ops : list operation) :
  resetDisabled (render (cells (run ops mount))) = true
  <-> isRunning (cells (run ops mount)) = true
      /\ display (render (cells (run ops mount))) = "00:00.00"%string.
Proof.
  destruct (run_time_bound ops mount eq_refl) as (Hm & _).
  set (c := run ops mount) in *.
  cbn [render resetDisabled display].
  assert (Hz : formatTime (time (cells c)) = "00:00.00"%string
               <-> time (cells c) = 0).
  { change "00:00.00"%string with (formatTime 0).
    split; [intros E | intros ->; reflexivity].
    apply formatTime_centis in E. change (0 / 10) with 0 in E.
    rewrite (N.div_mod (time (cells c)) 10) by lia.
    rewrite E, Hm. reflexivity. }
  rewrite Hz, Bool.andb_true_iff, N.eqb_eq. tauto.
Qed.

Lemma reset_disabled_at_zero_witness :
  resetDisabled (render (cells (run [ToggleRunning] mount))) = true
  /\ display (render (cells (run [ToggleRunning] mount))) = "00:00.00"%string.
Proof.
  split; [vm_compute; reflexivity|].
  apply (proj1 (reset_disabled_at_zero [ToggleRunning])).
  vm_compute; reflexivity.
Defined.
